(** * File organizer: a shallow embedding of [File_organizer.py]

    The program sorts the regular files of one directory into category
    sub-folders chosen by file-name suffix, can preview the moves (dry run)
    and can undo the batches of moves it performed.

    Modelling decisions, fixed here once:
    - file and category names are [string]s over 8-bit characters;
      [str.lower] is modelled on the letters A-Z;
    - a Python [dict] is an association list in insertion order;
    - a path is the list of its components, innermost first, so that
      [os.path.join(d, folder, name)] is [name :: folder :: d]; file and
      category names are taken to be single components (not empty, without
      separator, neither [.] nor [..]);
    - the file system is a finite map from paths to nodes, with POSIX
      behaviour for [os.rename]; it has no permissions, no limit on the
      length of a name and no symbolic links, so that [os.makedirs] and
      [os.listdir] fail here only on a path that is missing or is not a
      directory;
    - [config.json] is kept as the document it holds, apart from the file
      system;
    - the state holds the list box of one configuration window, the one
      opened last;
    - the text widget, the status bar, the message boxes and the log file
      are kept as lists of structured messages. *)

From Stdlib Require Import Ascii String.
From stdpp Require Import gmap strings list fin_maps.

#[local] Set Warnings "-clear-no-such-hyp".

Local Open Scope string_scope.
Local Open Scope list_scope.
Local Open Scope nat_scope.

(** ** Strings: the [str] methods the program calls *)

Module Str.

Definition lower_ascii (c : ascii) : ascii :=
  let n := nat_of_ascii c in
  if (65 <=? n)%nat && (n <=? 90)%nat then ascii_of_nat (n + 32) else c.

(** [s.lower()] *)
Fixpoint lower (s : string) : string :=
  match s with
  | EmptyString => EmptyString
  | String c s' => String (lower_ascii c) (lower s')
  end.

(** [s.startswith(p)] *)
Fixpoint startswith (s p : string) : bool :=
  match p, s with
  | EmptyString, _ => true
  | String _ _, EmptyString => false
  | String a p', String b s' => bool_decide (a = b) && startswith s' p'
  end.

(** [s.endswith(e)]: [s] is [e], or the tail of [s] ends with [e]. *)
Fixpoint endswith (s e : string) : bool :=
  bool_decide (s = e) ||
  match s with
  | EmptyString => false
  | String _ s' => endswith s' e
  end.

End Str.

(** ** Dictionaries in insertion order *)

Definition dict (V : Type) : Type := list (string * V).

Module Dict.
Section ops.
Context {V : Type}.

Definition keys (d : dict V) : list string := d.*1.

(** [k in d] *)
Definition mem (k : string) (d : dict V) : bool := bool_decide (k ∈ keys d).

(** [d[k]] *)
Fixpoint get (k : string) (d : dict V) : option V :=
  match d with
  | [] => None
  | (k', v) :: d' => if decide (k' = k) then Some v else get k d'
  end.

(** [d[k] = v] on a key that is present: the entry keeps its position. *)
Fixpoint update (k : string) (v : V) (d : dict V) : dict V :=
  match d with
  | [] => []
  | (k', v') :: d' =>
      if decide (k' = k) then (k', v) :: d' else (k', v') :: update k v d'
  end.

(** [d[k] = v]: a new key goes to the end. *)
Definition set (k : string) (v : V) (d : dict V) : dict V :=
  if mem k d then update k v d else d ++ [(k, v)].

(** [del d[k]] *)
Definition del (k : string) (d : dict V) : dict V :=
  filter (λ kv, kv.1 ≠ k) d.
End ops.
End Dict.

(** ** Classification (lines 210-214 and the [break] of line 229) *)

Inductive ClassificationResult :=
  | Ignored
  | Matched (folder : string)
  | Unmatched.

(** [filename.lower() in ignore_list or filename.startswith('.')] *)
Definition is_ignored (filename : string) (ignore_list : list string) : bool :=
  bool_decide (Str.lower filename ∈ ignore_list) || Str.startswith filename ".".

(** [any(filename.lower().endswith(ext) for ext in extensions)] *)
Definition any_endswith (filename : string) (extensions : list string) : bool :=
  existsb (λ ext, Str.endswith (Str.lower filename) ext) extensions.

(** The folder at which [for folder, extensions in file_extensions.items()]
    first finds a match. *)
Fixpoint first_folder (filename : string) (items : dict (list string))
  : option string :=
  match items with
  | [] => None
  | (folder, extensions) :: rest =>
      if any_endswith filename extensions then Some folder
      else first_folder filename rest
  end.

Definition classify (filename : string) (file_extensions : dict (list string))
    (ignore_list : list string) : ClassificationResult :=
  if is_ignored filename ignore_list then Ignored
  else match first_folder filename file_extensions with
       | Some folder => Matched folder
       | None => Unmatched
       end.

(** ** The file system and the [os] / [shutil] calls *)

Abbreviation path := (list string) (only parsing).

Inductive node :=
  | File (data : string)
  | Dir.

Abbreviation filesystem := (gmap (list string) node) (only parsing).

Inductive OSError :=
  | FileNotFoundError
  | FileExistsError
  | NotADirectoryError
  | IsADirectoryError
  | DirectoryNotEmpty
  | InvalidArgument
  | ShutilError.

Inductive result (A : Type) :=
  | Ok (a : A)
  | Raise (e : OSError).
Arguments Ok {A} a.
Arguments Raise {A} e.

Module Os.

(** [os.path.exists(p)] *)
Definition path_exists (p : path) (fs : filesystem) : bool :=
  match fs !! p with Some _ => true | None => false end.

(** [os.path.isfile(p)] *)
Definition isfile (p : path) (fs : filesystem) : bool :=
  match fs !! p with Some (File _) => true | _ => false end.

(** [os.path.isdir(p)] *)
Definition isdir (p : path) (fs : filesystem) : bool :=
  match fs !! p with Some Dir => true | _ => false end.

(** The name under which [p] is an immediate entry of [d], if it is one. *)
Definition child_of (d : path) (p : path) : option string :=
  match p with
  | name :: d' => if decide (d' = d) then Some name else None
  | [] => None
  end.

Definition entries (d : path) (fs : filesystem) : list string :=
  omap (λ pn, child_of d pn.1) (map_to_list fs).

(** [os.listdir(d)]; the order of the map stands for the arbitrary order
    in which the names come. *)
Definition listdir (d : path) (fs : filesystem) : result (list string) :=
  match fs !! d with
  | Some Dir => Ok (entries d fs)
  | Some (File _) => Raise NotADirectoryError
  | None => Raise FileNotFoundError
  end.

(** [os.mkdir(p)] *)
Definition mkdir (p : path) (fs : filesystem) : result filesystem :=
  if path_exists p fs then Raise FileExistsError
  else match fs !! tail p with
       | Some Dir => Ok (<[p := Dir]> fs)
       | Some (File _) => Raise NotADirectoryError
       | None => Raise FileNotFoundError
       end.

(** [os.makedirs(name)]: the missing ancestors are made first. *)
Fixpoint makedirs (name : path) (fs : filesystem) : result filesystem :=
  match name with
  | [] => mkdir [] fs
  | _ :: head =>
      if path_exists head fs then mkdir name fs
      else match makedirs head fs with
           | Ok fs' => mkdir name fs'
           | Raise e => Raise e
           end
  end.

(** Where an entry [p] of the tree under [src] lands when [src] becomes
    [dst]. *)
Definition rebase (src dst p : path) : path :=
  if decide (src `suffix_of` p)
  then take (length p - length src) p ++ dst
  else p.

Definition rename_tree (src dst : path) (fs : filesystem) : filesystem :=
  list_to_map ((λ pn, (rebase src dst pn.1, pn.2)) <$> map_to_list fs).

(** [os.rename(src, dst)], POSIX: a file replaces an existing file, a
    directory replaces an existing empty directory. *)
Definition rename (src dst : path) (fs : filesystem) : result filesystem :=
  match fs !! src with
  | None => Raise FileNotFoundError
  | Some n =>
      if decide (src = dst) then Ok fs
      else match fs !! tail dst with
           | None => Raise FileNotFoundError
           | Some (File _) => Raise NotADirectoryError
           | Some Dir =>
               match n, fs !! dst with
               | File _, Some Dir => Raise IsADirectoryError
               | File _, _ => Ok (<[dst := n]> (delete src fs))
               | Dir, Some (File _) => Raise NotADirectoryError
               | Dir, o =>
                   if decide (src `suffix_of` dst) then Raise InvalidArgument
                   else match o, entries dst fs with
                        | Some _, _ :: _ => Raise DirectoryNotEmpty
                        | _, _ => Ok (rename_tree src dst (delete dst fs))
                        end
               end
           end
  end.

End Os.

Module Shutil.

(** [shutil.move(src, dst)].  When [os.rename] fails for one of the reasons
    modelled in [Os.rename], the copy that [shutil.move] falls back to fails
    too, so the error is passed on; a failed move leaves the file system as
    it was. *)
Definition move (src dst : path) (fs : filesystem) : result filesystem :=
  if Os.isdir dst fs then
    if decide (src = dst) then Os.rename src dst fs
    else
      let real_dst := hd "" src :: dst in
      if Os.path_exists real_dst fs then Raise ShutilError
      else Os.rename src real_dst fs
  else Os.rename src dst fs.

End Shutil.

(** ** The program state: the module's globals, the widgets and the disk *)

(** A line put into [output_text]. *)
Inductive message :=
  | CreatedFolder (folder : string)
  | WouldMove (filename folder : string)
  | ErrorMoving (filename : string) (e : OSError)
  | NoCategoryFound (filename : string)
  | TotalOrganized (organized_count : nat)
  | OrganizedInto
  | CategoryCount (folder : string) (count : nat)
  | UndoingLast
  | ErrorUndoing (name : string) (e : OSError)
  | Reverted (undo_count : nat).

(** A record written by [logging]. *)
Inductive log_record :=
  | InfoMoved (filename folder : string)
  | ErrorMove (filename : string) (e : OSError)
  | InfoUndid (dest src : list string)
  | WarningUndoNotFound (dest : list string)
  | ErrorUndo (dest src : list string) (e : OSError).

(** The text of [status_var]. *)
Inductive status :=
  | Ready
  | AddedCategory (new_cat : string)
  | AddedExtension (new_ext cat : string)
  | SelectedDirectory (dir_path : list string)
  | Undid (undo_count : nat)
  | Organizing
  | OrganizationComplete.

(** A modal box shown by [messagebox]. *)
Inductive dialog :=
  | PleaseSelectDirectory.

(** The JSON document kept in [config.json]. *)
Record config_doc := {
  categories : dict (list string);
  ignore : list string
}.

(** [file_extensions] is the very object stored under [config['categories']],
    so one field stands for both; [config_ignore] is [config['ignore']].
    [undo_stack] grows at its end, as a Python list does. *)
Record state := {
  fs : gmap (list string) node;
  config_json : option config_doc;
  file_extensions : dict (list string);
  config_ignore : list string;
  ignore_list : list string;
  selected_directory : option (list string);
  undo_stack : list (list (list string * list string));
  output_text : list message;
  status_var : status;
  undo_btn : bool;
  log : list log_record;
  dialogs : list dialog;
  categories_listbox : list string
}.

(** Assignment to one global, the others kept. *)
Definition with_fs (v : gmap (list string) node) (s : state) : state :=
  {| fs := v; config_json := config_json s;
     file_extensions := file_extensions s; config_ignore := config_ignore s;
     ignore_list := ignore_list s;
     selected_directory := selected_directory s; undo_stack := undo_stack s;
     output_text := output_text s; status_var := status_var s;
     undo_btn := undo_btn s; log := log s; dialogs := dialogs s;
     categories_listbox := categories_listbox s |}.
Definition with_config_json (v : option config_doc) (s : state) : state :=
  {| fs := fs s; config_json := v; file_extensions := file_extensions s;
     config_ignore := config_ignore s; ignore_list := ignore_list s;
     selected_directory := selected_directory s; undo_stack := undo_stack s;
     output_text := output_text s; status_var := status_var s;
     undo_btn := undo_btn s; log := log s; dialogs := dialogs s;
     categories_listbox := categories_listbox s |}.
Definition with_file_extensions (v : dict (list string)) (s : state) : state :=
  {| fs := fs s; config_json := config_json s; file_extensions := v;
     config_ignore := config_ignore s; ignore_list := ignore_list s;
     selected_directory := selected_directory s; undo_stack := undo_stack s;
     output_text := output_text s; status_var := status_var s;
     undo_btn := undo_btn s; log := log s; dialogs := dialogs s;
     categories_listbox := categories_listbox s |}.
Definition with_config_ignore (v : list string) (s : state) : state :=
  {| fs := fs s; config_json := config_json s;
     file_extensions := file_extensions s; config_ignore := v;
     ignore_list := ignore_list s;
     selected_directory := selected_directory s; undo_stack := undo_stack s;
     output_text := output_text s; status_var := status_var s;
     undo_btn := undo_btn s; log := log s; dialogs := dialogs s;
     categories_listbox := categories_listbox s |}.
Definition with_selected_directory (v : option (list string)) (s : state) : state :=
  {| fs := fs s; config_json := config_json s;
     file_extensions := file_extensions s; config_ignore := config_ignore s;
     ignore_list := ignore_list s; selected_directory := v;
     undo_stack := undo_stack s; output_text := output_text s;
     status_var := status_var s; undo_btn := undo_btn s; log := log s;
     dialogs := dialogs s; categories_listbox := categories_listbox s |}.
Definition with_undo_stack (v : list (list (list string * list string)))
    (s : state) : state :=
  {| fs := fs s; config_json := config_json s;
     file_extensions := file_extensions s; config_ignore := config_ignore s;
     ignore_list := ignore_list s;
     selected_directory := selected_directory s; undo_stack := v;
     output_text := output_text s; status_var := status_var s;
     undo_btn := undo_btn s; log := log s; dialogs := dialogs s;
     categories_listbox := categories_listbox s |}.
Definition with_output_text (v : list message) (s : state) : state :=
  {| fs := fs s; config_json := config_json s;
     file_extensions := file_extensions s; config_ignore := config_ignore s;
     ignore_list := ignore_list s;
     selected_directory := selected_directory s; undo_stack := undo_stack s;
     output_text := v; status_var := status_var s; undo_btn := undo_btn s;
     log := log s; dialogs := dialogs s;
     categories_listbox := categories_listbox s |}.
Definition with_status_var (v : status) (s : state) : state :=
  {| fs := fs s; config_json := config_json s;
     file_extensions := file_extensions s; config_ignore := config_ignore s;
     ignore_list := ignore_list s;
     selected_directory := selected_directory s; undo_stack := undo_stack s;
     output_text := output_text s; status_var := v; undo_btn := undo_btn s;
     log := log s; dialogs := dialogs s;
     categories_listbox := categories_listbox s |}.
Definition with_undo_btn (v : bool) (s : state) : state :=
  {| fs := fs s; config_json := config_json s;
     file_extensions := file_extensions s; config_ignore := config_ignore s;
     ignore_list := ignore_list s;
     selected_directory := selected_directory s; undo_stack := undo_stack s;
     output_text := output_text s; status_var := status_var s; undo_btn := v;
     log := log s; dialogs := dialogs s;
     categories_listbox := categories_listbox s |}.
Definition with_log (v : list log_record) (s : state) : state :=
  {| fs := fs s; config_json := config_json s;
     file_extensions := file_extensions s; config_ignore := config_ignore s;
     ignore_list := ignore_list s;
     selected_directory := selected_directory s; undo_stack := undo_stack s;
     output_text := output_text s; status_var := status_var s;
     undo_btn := undo_btn s; log := v; dialogs := dialogs s;
     categories_listbox := categories_listbox s |}.
Definition with_dialogs (v : list dialog) (s : state) : state :=
  {| fs := fs s; config_json := config_json s;
     file_extensions := file_extensions s; config_ignore := config_ignore s;
     ignore_list := ignore_list s;
     selected_directory := selected_directory s; undo_stack := undo_stack s;
     output_text := output_text s; status_var := status_var s;
     undo_btn := undo_btn s; log := log s; dialogs := v;
     categories_listbox := categories_listbox s |}.
Definition with_categories_listbox (v : list string) (s : state) : state :=
  {| fs := fs s; config_json := config_json s;
     file_extensions := file_extensions s; config_ignore := config_ignore s;
     ignore_list := ignore_list s;
     selected_directory := selected_directory s; undo_stack := undo_stack s;
     output_text := output_text s; status_var := status_var s;
     undo_btn := undo_btn s; log := log s; dialogs := dialogs s;
     categories_listbox := v |}.

Definition add_output (m : message) (s : state) : state :=
  with_output_text (output_text s ++ [m]) s.

Definition add_log (r : log_record) (s : state) : state :=
  with_log (log s ++ [r]) s.

(** ** Configuration (lines 13-51 and 102-108) *)

Definition default_config : config_doc :=
  {| categories :=
       [ ("Images",
          [".jpg"; ".jpeg"; ".png"; ".gif"; ".bmp"; ".tiff"; ".svg"; ".webp"]);
         ("Documents",
          [".pdf"; ".docx"; ".txt"; ".xlsx"; ".pptx"; ".odt"; ".rtf"; ".csv"]);
         ("Audio", [".mp3"; ".wav"; ".aac"; ".flac"; ".ogg"; ".m4a"]);
         ("Videos", [".mp4"; ".avi"; ".mkv"; ".mov"; ".wmv"; ".flv"; ".webm"]);
         ("Archives", [".zip"; ".rar"; ".tar"; ".gz"; ".7z"; ".bz2"]);
         ("Scripts",
          [".py"; ".js"; ".sh"; ".bat"; ".rb"; ".php"; ".html"; ".css"]);
         ("Executables", [".exe"; ".msi"; ".dmg"; ".app"]);
         ("Fonts", [".ttf"; ".otf"; ".woff"; ".woff2"]);
         ("Torrents", [".torrent"]) ];
     ignore := ["desktop.ini"; "Thumbs.db"; ".DS_Store"] |}.

(** Lines 28-44, run once when the module is loaded: [config.json] is
    written with the defaults when it is missing, then read. *)
Definition startup (disk : gmap (list string) node) (file : option config_doc)
  : state :=
  let config := match file with Some doc => doc | None => default_config end in
  {| fs := disk;
     config_json := Some config;
     file_extensions := categories config;
     config_ignore := ignore config;
     ignore_list := Str.lower <$> ignore config;
     selected_directory := None;
     undo_stack := [];
     output_text := [];
     status_var := Ready;
     undo_btn := false;
     log := [];
     dialogs := [];
     categories_listbox := [] |}.

(** [save_config()]: [config['categories'] = file_extensions] stores the
    object that is there already, [config['ignore'] = ignore_list] replaces
    the loaded list, then the document is dumped. *)
Definition save_config (s : state) : state :=
  let s := with_config_ignore (ignore_list s) s in
  with_config_json
    (Some {| categories := file_extensions s; ignore := config_ignore s |}) s.

(** [open_config_window()], as far as the list of categories goes. *)
Definition open_config_window (s : state) : state :=
  with_categories_listbox (Dict.keys (file_extensions s)) s.

(** [add_category()]; [new_cat] is what the dialog returned, [None] when it
    was cancelled. *)
Definition add_category (new_cat : option string) (s : state) : state :=
  match new_cat with
  | Some new_cat =>
      if negb (bool_decide (new_cat = ""))
         && negb (Dict.mem new_cat (file_extensions s))
      then
        let s := with_file_extensions (Dict.set new_cat [] (file_extensions s)) s in
        let s := with_categories_listbox (categories_listbox s ++ [new_cat]) s in
        let s := save_config s in
        with_status_var (AddedCategory new_cat) s
      else s
  | None => s
  end.

(** [add_extension()]; [selected] is the category selected in the list box,
    if one is, and [new_ext] what the dialog returned. *)
Definition add_extension (selected : option string) (new_ext : option string)
    (s : state) : state :=
  match selected, new_ext with
  | Some cat, Some new_ext =>
      match Dict.get cat (file_extensions s) with
      | Some extensions =>
          if negb (bool_decide (new_ext = ""))
             && negb (bool_decide (new_ext ∈ extensions))
          then
            let s :=
              with_file_extensions
                (Dict.update cat (extensions ++ [new_ext]) (file_extensions s)) s in
            let s := save_config s in
            with_status_var (AddedExtension new_ext cat) s
          else s
      | None => s
      end
  | _, _ => s
  end.

(** [select_directory()]; [dir_path] is what the dialog returned. *)
Definition select_directory (dir_path : option (list string)) (s : state)
  : state :=
  match dir_path with
  | Some dir_path =>
      with_status_var (SelectedDirectory dir_path)
        (with_selected_directory (Some dir_path) s)
  | None => s
  end.

(** ** Undo (lines 159-183) *)

(** [l.pop()] *)
Definition pop {A} (l : list A) : option (A * list A) :=
  match last l with
  | Some x => Some (x, removelast l)
  | None => None
  end.

(** The body of [for src, dest in last_batch]. *)
Fixpoint undo_loop (last_batch : list (list string * list string))
    (undo_count : nat) (s : state) : nat * state :=
  match last_batch with
  | [] => (undo_count, s)
  | (src, dest) :: rest =>
      if Os.path_exists dest (fs s) then
        match Shutil.move dest src (fs s) with
        | Ok fs' =>
            undo_loop rest (undo_count + 1)
              (add_log (InfoUndid dest src) (with_fs fs' s))
        | Raise e =>
            undo_loop rest undo_count
              (add_output (ErrorUndoing (hd "" dest) e)
                 (add_log (ErrorUndo dest src e) s))
        end
      else undo_loop rest undo_count (add_log (WarningUndoNotFound dest) s)
  end.

(** Which [return] of [undo_changes] was taken; the second carries the
    final [undo_count]. *)
Inductive undo_outcome :=
  | NothingToUndo
  | UndoDone (undo_count : nat).

Definition undo_changes (s : state) : undo_outcome * state :=
  match pop (undo_stack s) with
  | None => (NothingToUndo, s)
  | Some (last_batch, rest) =>
      let s := with_undo_stack rest s in
      let s := add_output UndoingLast s in
      let '(undo_count, s) := undo_loop last_batch 0 s in
      let s := add_output (Reverted undo_count) s in
      let s := with_status_var (Undid undo_count) s in
      let s := match rest with [] => with_undo_btn false s | _ => s end in
      (UndoDone undo_count, s)
  end.

(** ** Organize (lines 185-250) *)

(** [organized_counts[folder] += 1] *)
Definition incr (folder : string) (organized_counts : dict nat) : dict nat :=
  match Dict.get folder organized_counts with
  | Some count => Dict.update folder (count + 1) organized_counts
  | None => organized_counts
  end.

(** Lines 197-202.  An exception of [os.makedirs] is not caught: it ends
    the call, with the state as it is by then. *)
Fixpoint create_folders (dry_run : bool) (d : path) (folders : list string)
    (s : state) : option OSError * state :=
  match folders with
  | [] => (None, s)
  | folder :: rest =>
      let folder_path := folder :: d in
      if Os.path_exists folder_path (fs s) then create_folders dry_run d rest s
      else if dry_run then
        create_folders dry_run d rest (add_output (CreatedFolder folder) s)
      else match Os.makedirs folder_path (fs s) with
           | Ok fs' =>
               create_folders dry_run d rest
                 (add_output (CreatedFolder folder) (with_fs fs' s))
           | Raise e => (Some e, s)
           end
  end.

(** The locals that the loops of [organize_files] update. *)
Record locals := {
  organized_counts : dict nat;
  current_batch : list (list string * list string)
}.

(** Lines 213-229: [for folder, extensions in file_extensions.items()], for
    one file.  The result says whether [moved] was set.  The [continue] of
    line 226 goes on with the next folder. *)
Fixpoint try_folders (dry_run : bool) (d : path) (filename : string)
    (items : dict (list string)) (l : locals) (s : state)
  : bool * locals * state :=
  match items with
  | [] => (false, l, s)
  | (folder, extensions) :: rest =>
      if any_endswith filename extensions then
        let file_path := filename :: d in
        let target_path := filename :: folder :: d in
        if dry_run then
          (true,
           {| organized_counts := incr folder (organized_counts l);
              current_batch := current_batch l |},
           add_output (WouldMove filename folder) s)
        else
          match Shutil.move file_path target_path (fs s) with
          | Ok fs' =>
              (true,
               {| organized_counts := incr folder (organized_counts l);
                  current_batch := current_batch l ++ [(file_path, target_path)] |},
               add_log (InfoMoved filename folder) (with_fs fs' s))
          | Raise e =>
              try_folders dry_run d filename rest l
                (add_output (ErrorMoving filename e)
                   (add_log (ErrorMove filename e) s))
          end
      else try_folders dry_run d filename rest l s
  end.

(** Lines 207-233: the body of [for filename in os.listdir(...)]. *)
Definition organize_file (dry_run : bool) (d : path) (filename : string)
    (l : locals) (s : state) : locals * state :=
  if Os.isfile (filename :: d) (fs s) then
    if is_ignored filename (ignore_list s) then (l, s)
    else
      let '(moved, l', s') :=
        try_folders dry_run d filename (file_extensions s) l s in
      if moved then (l', s')
      else (l', add_output (NoCategoryFound filename) s')
  else (l, s).

Fixpoint organize_loop (dry_run : bool) (d : path) (names : list string)
    (l : locals) (s : state) : locals * state :=
  match names with
  | [] => (l, s)
  | filename :: rest =>
      let '(l', s') := organize_file dry_run d filename l s in
      organize_loop dry_run d rest l' s'
  end.

(** Lines 236-244. *)
Definition summary (organized_counts : dict nat) (s : state) : state :=
  let organized_count := sum_list organized_counts.*2 in
  if decide (organized_count = 0) then add_output (TotalOrganized organized_count) s
  else
    foldl (λ s fc, if decide (0 < fc.2)
                   then add_output (CategoryCount fc.1 fc.2) s else s)
      (add_output OrganizedInto (add_output (TotalOrganized organized_count) s))
      organized_counts.

(** Lines 246-248. *)
Definition record_batch (current_batch : list (list string * list string))
    (s : state) : state :=
  match current_batch with
  | [] => s
  | _ :: _ => with_undo_btn true (with_undo_stack (undo_stack s ++ [current_batch]) s)
  end.

(** How a call of [organize_files] ended: at the [return] of line 189, by
    an exception that nothing catches, or at its last line, with the final
    values of its locals. *)
Inductive organize_outcome :=
  | NoDirectorySelected
  | Uncaught (e : OSError)
  | Completed (l : locals).

(** [organize_files()]; [dry_run] is [dry_run_var.get()]. *)
Definition organize_files (dry_run : bool) (s : state)
  : organize_outcome * state :=
  match selected_directory s with
  | None => (NoDirectorySelected, with_dialogs (dialogs s ++ [PleaseSelectDirectory]) s)
  | Some d =>
      let s := with_status_var Organizing (with_output_text [] s) in
      match create_folders dry_run d (Dict.keys (file_extensions s)) s with
      | (Some e, s) => (Uncaught e, s)
      | (None, s) =>
          let l :=
            {| organized_counts :=
                 (λ folder, (folder, 0)) <$> Dict.keys (file_extensions s);
               current_batch := [] |} in
          match Os.listdir d (fs s) with
          | Raise e => (Uncaught e, s)
          | Ok names =>
              let '(l, s) := organize_loop dry_run d names l s in
              let s := summary (organized_counts l) s in
              let s := record_batch (current_batch l) s in
              (Completed l, with_status_var OrganizationComplete s)
          end
      end
  end.

(** ** The specified classifier *)

(** The three conditions of the specified classifier. *)
Definition spec_ignored (filename : string) (ignore : list string) : Prop :=
  (∃ i, i ∈ ignore ∧ Str.lower i = Str.lower filename)
  ∨ (∃ rest, filename = String "." rest).

Definition spec_hit (filename : string) (extensions : list string) : Prop :=
  ∃ ext, ext ∈ extensions ∧ ∃ p, Str.lower filename = p +:+ ext.

Definition spec_first (filename folder : string) (rules : dict (list string))
  : Prop :=
  ∃ pre extensions post,
    rules = pre ++ (folder, extensions) :: post
    ∧ spec_hit filename extensions
    ∧ Forall (λ item, ¬ spec_hit filename item.2) pre.

(** ** What a call shows *)

(** The ways in which the program tells the user of a failure: a message
    box, a line of the report, the status bar, the log.  [surfaced s s']
    says that between [s] and [s'] one of them has changed. *)
Definition surfaced (s s' : state) : Prop :=
  dialogs s' ≠ dialogs s
  ∨ output_text s' ≠ output_text s
  ∨ status_var s' ≠ status_var s
  ∨ log s' ≠ log s.

(** ** Frames *)

(** What the loops of [organize_files] and [undo_changes] never assign:
    the configuration, the selection and the undo stack. *)
Definition same_globals (s s' : state) : Prop :=
  config_json s' = config_json s
  ∧ file_extensions s' = file_extensions s
  ∧ config_ignore s' = config_ignore s
  ∧ ignore_list s' = ignore_list s
  ∧ selected_directory s' = selected_directory s
  ∧ undo_stack s' = undo_stack s
  ∧ undo_btn s' = undo_btn s
  ∧ dialogs s' = dialogs s.

(** ** Moves as map updates *)

(** The node at [a] goes to [b]. *)
Definition relocate (a b : list string) (m : gmap (list string) node)
  : gmap (list string) node :=
  match m !! a with
  | Some n => <[b := n]> (delete a m)
  | None => m
  end.





(** ** Counting by classification *)

(** What the file [filename] adds to the counts when its classification
    alone decides: one under its folder if it is a regular file that is
    matched, nothing otherwise. *)
Definition count_file (d : list string) (m : gmap (list string) node)
    (file_extensions : dict (list string)) (ignore_list : list string)
    (counts : dict nat) (filename : string) : dict nat :=
  if Os.isfile (filename :: d) m then
    match classify filename file_extensions ignore_list with
    | Matched folder => incr folder counts
    | _ => counts
    end
  else counts.

(** ** States used as examples *)

(** A directory [dir] with four files, as in the scenario of the
    specification. *)
Definition scenario_disk : gmap (list string) node :=
  list_to_map
    [ ([], Dir); (["dir"], Dir);
      (["a.jpg"; "dir"], File "A"); (["b.txt"; "dir"], File "B");
      (["c.xyz"; "dir"], File "C"); (["Thumbs.db"; "dir"], File "T") ].

Definition scenario : state :=
  select_directory (Some ["dir"]) (startup scenario_disk None).

(** The selected directory has been removed since it was selected. *)
Definition gone : state :=
  select_directory (Some ["gone"]) (startup {[ [] := Dir ]} None).

(** The locals with which the real organize of [scenario] ends. *)
Definition scenario_locals : locals :=
  match (organize_files false scenario).1 with
  | Completed l => l
  | _ => {| organized_counts := []; current_batch := [] |}
  end.



(** A regular file whose name is that of a category stands where the
    folder should be. *)
Definition blocked : state :=
  select_directory (Some ["dir"])
    (startup
       (list_to_map
          [ ([], Dir); (["dir"], Dir);
            (["Images"; "dir"], File ""); (["a.jpg"; "dir"], File "A") ])
       None).

(** A category for [.tar.gz] has been added after the default ones, one of
    which holds [.gz], and a regular file is named as the folder of that
    one. *)
Definition overlap : state :=
  add_extension (Some "Tarballs") (Some ".tar.gz")
    (add_category (Some "Tarballs")
       (open_config_window
          (select_directory (Some ["dir"])
             (startup
                (list_to_map
                   [ ([], Dir); (["dir"], Dir);
                     (["Archives"; "dir"], File "");
                     (["backup.tar.gz"; "dir"], File "B") ])
                None)))).

(** As [overlap], the archive being named in capitals. *)
Definition capitals : state :=
  add_extension (Some "Tarballs") (Some ".tar.gz")
    (add_category (Some "Tarballs")
       (open_config_window
          (select_directory (Some ["dir"])
             (startup
                (list_to_map
                   [ ([], Dir); (["dir"], Dir);
                     (["Archives"; "dir"], File "");
                     (["Backup.TAR.GZ"; "dir"], File "B") ])
                None)))).

(** The extension [.HEIC] has been added to the pictures. *)
Definition heic : state :=
  add_extension (Some "Images") (Some ".HEIC")
    (open_config_window (startup ∅ None)).

(** The folder [Images] is there already and holds a file named as the
    picture that is to be moved. *)
Definition occupied : state :=
  select_directory (Some ["dir"])
    (startup
       (list_to_map
          [ ([], Dir); (["dir"], Dir); (["Images"; "dir"], Dir);
            (["a.jpg"; "Images"; "dir"], File "old");
            (["a.jpg"; "dir"], File "new") ])
       None).

(** ** The other commands of the configuration window (lines 80-141) *)

(** [KeyError], raised by [d[k]] and [del d[k]] on a key that is missing. *)
Inductive KeyError :=
  | MissingKey (key : string).

(** The texts that [remove_category] and [save_extensions] give to
    [status_var.set].  The program only ever writes the status bar, and the
    functions below hand the text out beside the state. *)
Inductive window_status :=
  | RemovedCategory (cat : string)
  | SavedExtensions (cat : string).

(** [categories_listbox.get(selected[0])] under [if selected]: [selected]
    is the index that is selected in the list box, if one is. *)
Definition selected_category (selected : option nat) (s : state)
  : option string :=
  match selected with
  | Some i => categories_listbox s !! i
  | None => None
  end.

(** [update_extensions()]: the new [ext_vars], one ticked box for each
    extension of the selected category, none without a selection. *)
Definition update_extensions (selected : option nat) (s : state)
  : option KeyError * list (string * bool) :=
  match selected_category selected s with
  | Some cat =>
      match Dict.get cat (file_extensions s) with
      | Some exts => (None, (λ ext, (ext, true)) <$> exts)
      | None => (Some (MissingKey cat), [])
      end
  | None => (None, [])
  end.

(** [remove_category()]; [confirm] is the answer to the question asked.
    [del file_extensions[cat]] comes first and raises [KeyError], which
    nothing catches, when the key is missing.  The result is the exception
    that ended the call, if one did, the text for the status bar, if one
    was set, and the state. *)
Definition remove_category (selected : option nat) (confirm : bool)
    (s : state) : option KeyError * option window_status * state :=
  match selected, selected_category selected s with
  | Some i, Some cat =>
      if confirm then
        if Dict.mem cat (file_extensions s) then
          let s := with_file_extensions (Dict.del cat (file_extensions s)) s in
          let s := with_categories_listbox (delete i (categories_listbox s)) s in
          let s := save_config s in
          (None, Some (RemovedCategory cat), s)
        else (Some (MissingKey cat), None, s)
      else (None, None, s)
  | _, _ => (None, None, s)
  end.

(** [[ext for ext, var in ext_vars if var.get()]] *)
Definition ticked (ext_vars : list (string * bool)) : list string :=
  (filter (λ ev, ev.2 = true) ext_vars).*1.

(** [save_extensions()]; [ext_vars] are the check boxes as they stand.
    The result is the text for the status bar, if one was set, and the
    state. *)
Definition save_extensions (selected : option nat)
    (ext_vars : list (string * bool)) (s : state)
  : option window_status * state :=
  match selected_category selected s with
  | Some cat =>
      let s :=
        with_file_extensions
          (Dict.set cat (ticked ext_vars) (file_extensions s)) s in
      let s := save_config s in
      (Some (SavedExtensions cat), s)
  | None => (None, s)
  end.

(** ** The commands as the window binds them (lines 143-146, 264-304) *)

(** What the user, or anything else, can do between two states.  The
    selection, the answers to the dialogs and the check boxes come with
    the command; [Outside] is a change of the disk by something else. *)
Inductive command :=
  | SelectDirectory (dir_path : option (list string))
  | OpenConfigWindow
  | AddCategory (new_cat : option string)
  | RemoveCategory (selected : option nat) (confirm : bool)
  | AddExtension (selected : option nat) (new_ext : option string)
  | SaveExtensions (selected : option nat) (ext_vars : list (string * bool))
  | OrganizeFiles (dry_run : bool)
  | UndoChanges
  | Outside (disk : gmap (list string) node).

Definition perform (c : command) (s : state) : state :=
  match c with
  | SelectDirectory dir_path => select_directory dir_path s
  | OpenConfigWindow => open_config_window s
  | AddCategory new_cat => add_category new_cat s
  | RemoveCategory selected confirm => (remove_category selected confirm s).2
  | AddExtension selected new_ext =>
      add_extension (selected_category selected s) new_ext s
  | SaveExtensions selected ext_vars =>
      (save_extensions selected ext_vars s).2
  | OrganizeFiles dry_run => (organize_files dry_run s).2
  | UndoChanges => (undo_changes s).2
  | Outside disk => with_fs disk s
  end.

(** The state after the commands [cs], from left to right. *)
Definition run (cs : list command) (s : state) : state :=
  foldl (λ s c, perform c s) s cs.

(** The commands that read and write the settings only: they leave the
    files of the disk, [config.json] among them, where they are. *)
Definition settings_command (c : command) : bool :=
  match c with
  | OrganizeFiles _ | UndoChanges | Outside _ => false
  | _ => true
  end.

(** ** Category names that are one path component *)

(** [os.path.join(d, folder)] is the path [folder :: d] when [folder] is
    one component: not empty, without a separator, and neither [.] nor
    [..].  What is said below of the places where an organize leaves the
    files is said of rules whose category names are of this kind. *)
Definition plain (name : string) : bool :=
  negb (bool_decide (name = ""))
  && negb (bool_decide (name = "."))
  && negb (bool_decide (name = ".."))
  && forallb (λ c, negb (bool_decide (c = "/"%char))) (list_ascii_of_string name).

Definition plain_names (rules : dict (list string)) : bool :=
  forallb plain (Dict.keys rules).

(** A directory with a picture, beside a picture that is outside it and
    one that is in a sub-folder of it. *)
Definition nested : state :=
  select_directory (Some ["dir"])
    (startup
       (list_to_map
          [ ([], Dir); (["dir"], Dir); (["e.jpg"], File "E");
            (["a.jpg"; "dir"], File "A"); (["sub"; "dir"], Dir);
            (["b.jpg"; "sub"; "dir"], File "B") ])
       None).

(** ** What organize and undo can assign *)

(** [s'] is [s] but for the disk, the report and the log. *)
Definition only_disk_and_report (s s' : state) : Prop :=
  s' = with_log (log s') (with_output_text (output_text s') (with_fs (fs s') s)).

(** The configuration in memory and on disk, the ignore list, the
    selection and the list box. *)
Definition same_settings (s s' : state) : Prop :=
  config_json s' = config_json s
  ∧ file_extensions s' = file_extensions s
  ∧ config_ignore s' = config_ignore s
  ∧ ignore_list s' = ignore_list s
  ∧ selected_directory s' = selected_directory s
  ∧ categories_listbox s' = categories_listbox s.

(** ** Rules whose order does not matter *)

(** No extension of [a] is a suffix of one of [b], nor the other way
    round. *)
Definition disjoint_exts (a b : list string) : bool :=
  forallb (λ x, forallb (λ y, negb (Str.endswith x y) && negb (Str.endswith y x)) b) a.

(** The extensions of any two entries of the rules are disjoint in that
    sense. *)
Fixpoint overlap_free (rules : dict (list string)) : bool :=
  match rules with
  | [] => true
  | (_, exts) :: rest =>
      forallb (λ item, disjoint_exts exts item.2) rest && overlap_free rest
  end.

(** The configuration window is opened once at most, and its commands are
    given only after that: [allowed opened cs] says that [cs] respects
    this, [opened] telling whether the window has been opened before.
    (Each [open_config_window()] builds a list box of its own, and the
    state has one.) *)
Fixpoint allowed (opened : bool) (cs : list command) : bool :=
  match cs with
  | [] => true
  | OpenConfigWindow :: cs => negb opened && allowed true cs
  | (AddCategory _ | RemoveCategory _ _ | AddExtension _ _
     | SaveExtensions _ _) :: cs => opened && allowed opened cs
  | _ :: cs => allowed opened cs
  end.

(** A session: the window is opened, a category is added and removed,
    and the removal is asked for once more on the same line. *)
Definition window_session : list command :=
  [ OpenConfigWindow; AddCategory (Some "Models");
    RemoveCategory (Some 9) true; RemoveCategory (Some 9) true ].

(** * Properties *)

#[local] Arguments Os.makedirs : simpl never.
#[local] Arguments Os.mkdir : simpl never.
#[local] Arguments Os.rename : simpl never.
#[local] Arguments Os.listdir : simpl never.
#[local] Arguments Os.path_exists : simpl never.
#[local] Arguments Os.isfile : simpl never.
#[local] Arguments Os.isdir : simpl never.
#[local] Arguments Shutil.move : simpl never.


(** ** Strings *)

Lemma endswith_suffix (s e : string) :
  Str.endswith s e = true ↔ ∃ p, s = p +:+ e.
Proof.
  induction s as [|c s IH]; simpl.
  - rewrite orb_false_r, bool_decide_eq_true. split.
    + intros <-. by exists "".
    + intros [p Hp]. destruct p; simpl in Hp; [done | discriminate].
  - rewrite orb_true_iff, bool_decide_eq_true, IH. split.
    + intros [<- | [p ->]]; [by exists "" | by exists (String c p)].
    + intros [[|c' p] Hp]; simpl in Hp; [by left | right].
      injection Hp as _ ->. by exists p.
Qed.

Lemma startswith_dot (s : string) :
  Str.startswith s "." = true ↔ ∃ rest, s = String "." rest.
Proof.
  destruct s as [|c s]; simpl.
  - split; [done | by intros [? ?]].
  - rewrite andb_true_iff, bool_decide_eq_true. split.
    + intros [<- _]. by exists s.
    + intros [rest [= <- _]]. split; [done | by destruct s].
Qed.

(** ** The classifier *)

Lemma is_ignored_spec filename ignore :
  is_ignored filename (Str.lower <$> ignore) = true ↔ spec_ignored filename ignore.
Proof.
  unfold is_ignored, spec_ignored.
  rewrite orb_true_iff, bool_decide_eq_true, list_elem_of_fmap, startswith_dot.
  naive_solver.
Qed.

Lemma any_endswith_spec filename extensions :
  any_endswith filename extensions = true ↔ spec_hit filename extensions.
Proof.
  unfold any_endswith, spec_hit. rewrite existsb_exists.
  setoid_rewrite <- list_elem_of_In. setoid_rewrite endswith_suffix. done.
Qed.

Lemma first_folder_Some filename rules folder :
  first_folder filename rules = Some folder ↔ spec_first filename folder rules.
Proof.
  induction rules as [|[c exts] rules IH]; simpl.
  - split; [done|]. intros (pre & ? & ? & H & _). by destruct pre.
  - destruct (any_endswith filename exts) eqn:Hany.
    + split.
      * intros [= ->]. exists [], exts, rules. split_and!; [done | | constructor].
        by apply any_endswith_spec.
      * intros ([|[c' exts'] pre] & e & post & Heq & Hhit & Hpre); simplify_eq/=; [done|].
        apply Forall_cons_1 in Hpre as [Hno _]. simpl in Hno.
        by apply any_endswith_spec in Hany.
    + rewrite IH. split.
      * intros (pre & e & post & -> & Hhit & Hpre).
        exists ((c, exts) :: pre), e, post. split_and!; [done..|].
        constructor; [|done]. simpl. rewrite <- any_endswith_spec. congruence.
      * intros ([|[c' exts'] pre] & e & post & Heq & Hhit & Hpre); simplify_eq/=.
        -- apply any_endswith_spec in Hhit. congruence.
        -- apply Forall_cons_1 in Hpre as [_ Hpre]. by exists pre, e, post.
Qed.

Lemma first_folder_None filename rules :
  first_folder filename rules = None
  ↔ Forall (λ item, ¬ spec_hit filename item.2) rules.
Proof.
  induction rules as [|[c exts] rules IH]; simpl.
  - split; [constructor | done].
  - rewrite Forall_cons, <- IH. simpl. rewrite <- any_endswith_spec.
    destruct (any_endswith filename exts); naive_solver.
Qed.

Lemma try_folders_dry d filename items l s :
  try_folders true d filename items l s =
  match first_folder filename items with
  | Some folder =>
      (true,
       {| organized_counts := incr folder (organized_counts l);
          current_batch := current_batch l |},
       add_output (WouldMove filename folder) s)
  | None => (false, l, s)
  end.
Proof.
  induction items as [|[c exts] items IH]; simpl; [done|].
  by destruct (any_endswith filename exts).
Qed.

Lemma try_folders_real_ok d filename items l s folder fs' :
  first_folder filename items = Some folder →
  Shutil.move (filename :: d) (filename :: folder :: d) (fs s) = Ok fs' →
  try_folders false d filename items l s =
  (true,
   {| organized_counts := incr folder (organized_counts l);
      current_batch :=
        current_batch l ++ [(filename :: d, filename :: folder :: d)] |},
   add_log (InfoMoved filename folder) (with_fs fs' s)).
Proof.
  induction items as [|[c exts] items IH]; simpl; [done|].
  destruct (any_endswith filename exts); [|done].
  intros [= ->] ->. done.
Qed.

Lemma try_folders_unmatched dry_run d filename items l s :
  first_folder filename items = None →
  try_folders dry_run d filename items l s = (false, l, s).
Proof.
  induction items as [|[c exts] items IH]; simpl; [done|].
  destruct (any_endswith filename exts); [done | apply IH].
Qed.

(** The classifier, taken alone, is the specified one: it answers
    [Ignored] exactly for the names that are in the ignore list up to case
    or start with a dot, otherwise [Matched c] exactly for the first
    category, in the order of the rules, one of whose extensions is a
    suffix of the lowercased name, otherwise [Unmatched]. *)
Lemma classify_spec (filename : string) (rules : dict (list string))
    (ignore : list string) :
  (classify filename rules (Str.lower <$> ignore) = Ignored
     ↔ spec_ignored filename ignore)
  ∧ (∀ folder,
       classify filename rules (Str.lower <$> ignore) = Matched folder
       ↔ ¬ spec_ignored filename ignore ∧ spec_first filename folder rules)
  ∧ (classify filename rules (Str.lower <$> ignore) = Unmatched
       ↔ ¬ spec_ignored filename ignore
         ∧ Forall (λ item, ¬ spec_hit filename item.2) rules).
Proof.
  unfold classify. split_and!.
  - rewrite <- is_ignored_spec.
    destruct (is_ignored _ _); [done|]. destruct (first_folder _ _); naive_solver.
  - intros folder. rewrite <- is_ignored_spec, <- first_folder_Some.
    destruct (is_ignored _ _); [naive_solver|].
    destruct (first_folder _ _); naive_solver.
  - rewrite <- is_ignored_spec, <- first_folder_None.
    destruct (is_ignored _ _); [naive_solver|].
    destruct (first_folder _ _); naive_solver.
Qed.

(** C1. The loop of a real run does not always take the first matching
    category.  The rules hold [Archives], with [.gz], before [Tarballs],
    with [.tar.gz]; the name [Backup.TAR.GZ] is not ignored and both
    categories match it, so the specified answer is [Archives], which is
    also what the classifier computes and what a dry run reports.  In the
    real run the move into [Archives] fails, the loop over the categories
    goes on and matches the name a second time: the file is moved into
    [Tarballs], the later category, and counted there. *)
Theorem later_category_takes_the_file :
  ¬ spec_ignored "Backup.TAR.GZ" (ignore default_config)
  ∧ spec_first "Backup.TAR.GZ" "Archives" (file_extensions capitals)
  ∧ spec_hit "Backup.TAR.GZ" [".tar.gz"]
  ∧ Dict.get "Tarballs" (file_extensions capitals) = Some [".tar.gz"]
  ∧ classify "Backup.TAR.GZ" (file_extensions capitals) (ignore_list capitals)
    = Matched "Archives"
  ∧ WouldMove "Backup.TAR.GZ" "Archives"
    ∈ output_text (organize_files true capitals).2
  ∧ (∃ l, (organize_files false capitals).1 = Completed l
          ∧ Dict.get "Archives" (organized_counts l) = Some 0
          ∧ Dict.get "Tarballs" (organized_counts l) = Some 1)
  ∧ log (organize_files false capitals).2
    = [ ErrorMove "Backup.TAR.GZ" NotADirectoryError;
        InfoMoved "Backup.TAR.GZ" "Tarballs" ]
  ∧ CategoryCount "Tarballs" 1 ∈ output_text (organize_files false capitals).2
  ∧ fs (organize_files false capitals).2 !! ["Backup.TAR.GZ"; "Tarballs"; "dir"]
    = Some (File "B").
Proof.
  assert (ignore_list capitals = Str.lower <$> ignore default_config) as Hign
    by reflexivity.
  assert (classify "Backup.TAR.GZ" (file_extensions capitals)
            (ignore_list capitals) = Matched "Archives") as Hcl
    by (vm_compute; reflexivity).
  pose proof (classify_spec "Backup.TAR.GZ" (file_extensions capitals)
                (ignore default_config)) as (_ & Hmatched & _).
  rewrite <- Hign in Hmatched. apply Hmatched in Hcl as Hspec.
  destruct Hspec as [Hnot Hfirst].
  split_and!; [exact Hnot | exact Hfirst | | | exact Hcl | | | | |].
  - apply any_endswith_spec. vm_compute. reflexivity.
  - vm_compute. reflexivity.
  - vm_compute. set_solver.
  - eexists. split_and!; vm_compute; reflexivity.
  - vm_compute. reflexivity.
  - vm_compute. set_solver.
  - vm_compute. reflexivity.
Qed.

(** ** What the loops leave alone *)

Lemma same_globals_refl s : same_globals s s.
Proof. by repeat split. Qed.

Lemma same_globals_trans s1 s2 s3 :
  same_globals s1 s2 → same_globals s2 s3 → same_globals s1 s3.
Proof. unfold same_globals. intros ? ?. destruct_and!. split_and!; congruence. Qed.

Ltac same_globals_now := by repeat split.

Ltac same_globals_then IH :=
  eapply same_globals_trans; [|apply IH]; same_globals_now.

Lemma create_folders_globals dry_run d folders s :
  same_globals s (create_folders dry_run d folders s).2.
Proof.
  revert s. induction folders as [|folder folders IH]; intros s; simpl.
  - same_globals_now.
  - destruct (Os.path_exists _ _); [apply IH|].
    destruct dry_run; [same_globals_then IH|].
    destruct (Os.makedirs _ _); [same_globals_then IH | same_globals_now].
Qed.

Lemma try_folders_globals dry_run d filename items l s :
  same_globals s (try_folders dry_run d filename items l s).2.
Proof.
  revert s. induction items as [|[folder exts] items IH]; intros s; simpl.
  - same_globals_now.
  - destruct (any_endswith _ _); [|apply IH].
    destruct dry_run; [same_globals_now|].
    destruct (Shutil.move _ _ _); [same_globals_now | same_globals_then IH].
Qed.

Lemma organize_file_globals dry_run d filename l s :
  same_globals s (organize_file dry_run d filename l s).2.
Proof.
  unfold organize_file. destruct (Os.isfile _ _); [|same_globals_now].
  destruct (is_ignored _ _); [same_globals_now|].
  pose proof (try_folders_globals dry_run d filename (file_extensions s) l s) as H.
  destruct (try_folders _ _ _ _ _ _) as [[moved l'] s']. simpl in H.
  destruct moved; simpl; [done|].
  eapply same_globals_trans; [exact H | same_globals_now].
Qed.

Lemma organize_loop_globals dry_run d names l s :
  same_globals s (organize_loop dry_run d names l s).2.
Proof.
  revert l s. induction names as [|filename names IH]; intros l s; simpl.
  - same_globals_now.
  - pose proof (organize_file_globals dry_run d filename l s) as H.
    destruct (organize_file _ _ _ _ _) as [l' s']. simpl in H.
    eapply same_globals_trans; [exact H | apply IH].
Qed.

Lemma summary_lines_globals counts s :
  same_globals s
    (foldl (λ s fc, if decide (0 < fc.2)
                    then add_output (CategoryCount fc.1 fc.2) s else s)
       s counts)
  ∧ fs (foldl (λ s fc, if decide (0 < fc.2)
                       then add_output (CategoryCount fc.1 fc.2) s else s)
          s counts) = fs s.
Proof.
  revert s. induction counts as [|fc counts IH]; intros s; simpl.
  - split; [same_globals_now | done].
  - case_decide; [|apply IH].
    destruct (IH (add_output (CategoryCount fc.1 fc.2) s)) as [H1 H2].
    split; [|by rewrite H2].
    eapply same_globals_trans; [|exact H1]. same_globals_now.
Qed.

Lemma summary_globals counts s : same_globals s (summary counts s).
Proof.
  unfold summary. case_decide; [same_globals_now|].
  eapply same_globals_trans; [|apply summary_lines_globals]. same_globals_now.
Qed.

Lemma summary_fs counts s : fs (summary counts s) = fs s.
Proof.
  unfold summary. case_decide; [done|].
  by rewrite (proj2 (summary_lines_globals _ _)).
Qed.


(** ** A dry run writes nothing *)

Lemma create_folders_dry d folders s :
  ∃ s', create_folders true d folders s = (None, s') ∧ fs s' = fs s.
Proof.
  revert s. induction folders as [|folder folders IH]; intros s; simpl.
  - by exists s.
  - destruct (Os.path_exists _ _); [apply IH|].
    destruct (IH (add_output (CreatedFolder folder) s)) as (s' & -> & Hfs).
    by exists s'.
Qed.

Lemma organize_file_dry d filename l s :
  fs (organize_file true d filename l s).2 = fs s
  ∧ current_batch (organize_file true d filename l s).1 = current_batch l.
Proof.
  unfold organize_file. destruct (Os.isfile _ _); [|done].
  destruct (is_ignored _ _); [done|].
  rewrite try_folders_dry. by destruct (first_folder _ _).
Qed.

Lemma organize_loop_dry d names l s :
  fs (organize_loop true d names l s).2 = fs s
  ∧ current_batch (organize_loop true d names l s).1 = current_batch l.
Proof.
  revert l s. induction names as [|filename names IH]; intros l s; simpl; [done|].
  destruct (organize_file_dry d filename l s) as [Hfs Hb].
  destruct (organize_file _ _ _ _ _) as [l' s']. simpl in *.
  destruct (IH l' s') as [-> ->]. done.
Qed.

(** ** The undo stack *)

Lemma pop_snoc {A} (l : list A) (x : A) : pop (l ++ [x]) = Some (x, l).
Proof. unfold pop. by rewrite last_snoc, removelast_last. Qed.




Lemma organize_files_undo_stack dry_run s :
  undo_stack (organize_files dry_run s).2 =
  match (organize_files dry_run s).1 with
  | Completed l => undo_stack (record_batch (current_batch l) s)
  | _ => undo_stack s
  end.
Proof.
  unfold organize_files. destruct (selected_directory s) as [d|]; [|done].
  set (s0 := with_status_var Organizing (with_output_text [] s)).
  pose proof (create_folders_globals dry_run d (Dict.keys (file_extensions s0)) s0) as H1.
  destruct (create_folders _ _ _ _) as [[e|] s1]; simpl in H1.
  { simpl. by destruct H1 as (_ & _ & _ & _ & _ & -> & _). }
  destruct (Os.listdir _ _) as [names|e]; simpl.
  2: { by destruct H1 as (_ & _ & _ & _ & _ & -> & _). }
  match goal with |- context [organize_loop ?a ?b ?c ?d ?e] =>
    pose proof (organize_loop_globals a b c d e) as H2;
    destruct (organize_loop a b c d e) as [l2 s2] end.
  simpl in *.
  pose proof (summary_globals (organized_counts l2) s2) as H3.
  assert (undo_stack (summary (organized_counts l2) s2) = undo_stack s) as Hu.
  { destruct H1 as (_ & _ & _ & _ & _ & E1 & _), H2 as (_ & _ & _ & _ & _ & E2 & _),
      H3 as (_ & _ & _ & _ & _ & E3 & _). by rewrite E3, E2, E1. }
  destruct (current_batch l2); simpl; [done | by rewrite Hu].
Qed.



(** ** Configuration *)

(** C8, as the program has it. Adding a category under a name that is
    already a key is passed over in silence: the call ends as it does when
    the dialog is cancelled, nothing is shown, and the whole state is as
    before, so the category keeps its extensions and [config.json] is not
    rewritten. *)
Theorem add_category_duplicate (name : string) (s : state) :
  name ∈ Dict.keys (file_extensions s) →
  add_category (Some name) s = s
  ∧ add_category (Some name) s = add_category None s
  ∧ ¬ surfaced s (add_category (Some name) s).
Proof.
  intros Hin.
  assert (add_category (Some name) s = s) as ->.
  { unfold add_category, Dict.mem.
    rewrite (bool_decide_eq_true_2 _ Hin). by rewrite andb_false_r. }
  split_and!; [done..|]. unfold surfaced. naive_solver.
Qed.

Lemma add_category_duplicate_witness :
  add_category (Some "Images") scenario = scenario
  ∧ add_category (Some "Images") scenario = add_category None scenario
  ∧ ¬ surfaced scenario (add_category (Some "Images") scenario).
Proof. apply add_category_duplicate. vm_compute. set_solver. Defined.

(** C8, as stated, fails: [Images] is a category already, and adding it
    again shows no failure: no message box, no line of the report, the
    status bar and the log as they were, and the state that cancelling the
    dialog leaves.  An extension that the category has already is passed
    over in the same way.  (A refusal that the program does show, that of
    an organize without a directory, leaves its message box.) *)
Lemma duplicate_category_is_not_reported :
  "Images" ∈ Dict.keys (file_extensions (open_config_window (startup ∅ None)))
  ∧ ¬ surfaced (open_config_window (startup ∅ None))
        (add_category (Some "Images") (open_config_window (startup ∅ None)))
  ∧ add_category (Some "Images") (open_config_window (startup ∅ None))
    = add_category None (open_config_window (startup ∅ None))
  ∧ add_extension (Some "Images") (Some ".jpg") (open_config_window (startup ∅ None))
    = open_config_window (startup ∅ None)
  ∧ surfaced (open_config_window (startup ∅ None))
      (organize_files false (open_config_window (startup ∅ None))).2.
Proof.
  split_and!.
  - vm_compute. set_solver.
  - unfold surfaced. vm_compute. naive_solver.
  - vm_compute. reflexivity.
  - vm_compute. reflexivity.
  - left. vm_compute. discriminate.
Qed.

(** C9, as the program has it. Loading a document and saving it writes the
    categories as they were and the ignore list in lower case; the
    document written is the one read exactly when its ignore list was in
    lower case already. *)
Theorem load_save_lowers_ignore (disk : gmap (list string) node)
    (doc : config_doc) :
  config_json (save_config (startup disk (Some doc)))
  = Some {| categories := categories doc; ignore := Str.lower <$> ignore doc |}
  ∧ (config_json (save_config (startup disk (Some doc))) = Some doc
     ↔ Str.lower <$> ignore doc = ignore doc).
Proof.
  split; [done|]. simpl. destruct doc as [cats ign]. simpl. split.
  - by intros [= ->].
  - by intros ->.
Qed.

(** C9, as stated, fails on the default document. *)
Lemma default_config_not_preserved :
  config_json (save_config (startup ∅ (Some default_config)))
  ≠ Some default_config.
Proof. vm_compute. discriminate. Qed.

(** ** Matching of extensions *)

(** C7. The extension [.HEIC], added through the dialog, is among those
    of the pictures, and it is a suffix of [IMG_0001.HEIC] when case is
    ignored; yet the program finds no category for that file, nor for
    [img_0001.heic]: only the file name is put in lower case, the
    extension is compared as it was typed. *)
Theorem upper_case_extension_unmatched :
  (∃ extensions, Dict.get "Images" (file_extensions heic) = Some extensions
                 ∧ ".HEIC" ∈ extensions)
  ∧ (∃ p, Str.lower "IMG_0001.HEIC" = p +:+ Str.lower ".HEIC")
  ∧ classify "IMG_0001.HEIC" (file_extensions heic) (ignore_list heic)
    = Unmatched
  ∧ classify "img_0001.heic" (file_extensions heic) (ignore_list heic)
    = Unmatched.
Proof.
  split; [eexists; split; [vm_compute; reflexivity | set_solver]|].
  split; [by exists "img_0001" | by vm_compute].
Qed.

(** ** Moves as map updates *)

Section relocate.
Implicit Types (m : gmap (list string) node) (a b c e p : list string).
Implicit Types (recs : list (list string * list string)).

Lemma relocate_lookup_ne a b m p :
  p ≠ a → p ≠ b → relocate a b m !! p = m !! p.
Proof.
  intros Ha Hb. unfold relocate. destruct (m !! a); [|done].
  by rewrite lookup_insert_ne, lookup_delete_ne.
Qed.


Lemma relocate_lookup_src a b m :
  a ≠ b → relocate a b m !! a = None.
Proof.
  intros Hab. unfold relocate. destruct (m !! a) eqn:Ha; [|done].
  rewrite lookup_insert_ne by done. apply lookup_delete_eq.
Qed.






End relocate.

(** ** Moving a file *)


Lemma rename_file_ok (src dst : list string) (m m' : gmap (list string) node) x :
  m !! src = Some (File x) → src ≠ dst → Os.rename src dst m = Ok m' →
  m' = relocate src dst m.
Proof.
  intros Hsrc Hne. unfold Os.rename, relocate. rewrite Hsrc.
  case_decide; [done|].
  destruct (m !! tail dst) as [[|]|]; [done| |done].
  destruct (m !! dst) as [[|]|]; congruence.
Qed.


Lemma move_file_frame (src dst p : list string) (m m' : gmap (list string) node) x :
  m !! src = Some (File x) → Shutil.move src dst m = Ok m' →
  p ≠ src → p ≠ dst → p ≠ hd "" src :: dst → m' !! p = m !! p.
Proof.
  intros Hsrc Hmv Hp1 Hp2 Hp3. unfold Shutil.move in Hmv.
  destruct (Os.isdir dst m) eqn:Hdir.
  - case_decide as Heq.
    + subst dst. unfold Os.isdir in Hdir. by rewrite Hsrc in Hdir.
    + destruct (Os.path_exists _ _); [done|].
      destruct (decide (src = hd "" src :: dst)) as [Heq'|Hne].
      * unfold Os.rename in Hmv. rewrite Hsrc in Hmv.
        rewrite decide_True in Hmv by done. congruence.
      * rewrite (rename_file_ok _ _ _ _ x Hsrc Hne Hmv).
        by apply relocate_lookup_ne.
  - destruct (decide (src = dst)) as [->|Hne].
    + unfold Os.rename in Hmv. rewrite Hsrc in Hmv.
      rewrite decide_True in Hmv by done. congruence.
    + rewrite (rename_file_ok _ _ _ _ x Hsrc Hne Hmv).
      by apply relocate_lookup_ne.
Qed.

Lemma isfile_Some (p : list string) (m : gmap (list string) node) :
  Os.isfile p m = true ↔ ∃ x, m !! p = Some (File x).
Proof.
  unfold Os.isfile. destruct (m !! p) as [[x|]|]; split; try done.
  - by exists x.
  - by intros [? ?].
  - by intros [? ?].
Qed.

(** ** The loops of a real run *)

Lemma try_folders_real d filename items l s moved l' s' :
  try_folders false d filename items l s = (moved, l', s') →
  (moved = false ∧ l' = l ∧ fs s' = fs s)
  ∨ (∃ folder,
       moved = true ∧ folder ∈ Dict.keys items
       ∧ organized_counts l' = incr folder (organized_counts l)
       ∧ current_batch l'
         = current_batch l ++ [(filename :: d, filename :: folder :: d)]
       ∧ Shutil.move (filename :: d) (filename :: folder :: d) (fs s)
         = Ok (fs s')).
Proof.
  revert s. induction items as [|[folder exts] items IH]; intros s; simpl.
  - intros [= <- <- <-]. by left.
  - destruct (any_endswith filename exts).
    + destruct (Shutil.move _ _ _) as [m'|e] eqn:Hmv.
      * intros [= <- <- <-]. right. exists folder. simpl.
        split_and!; [done|set_solver|done..].
      * intros H. apply IH in H as [H|(c & ? & ? & ? & ? & ?)]; [by left|].
        right. exists c. split_and!; [done|set_solver|done..].
    + intros H. apply IH in H as [H|(c & ? & ? & ? & ? & ?)]; [by left|].
      right. exists c. split_and!; [done|set_solver|done..].
Qed.

Lemma organize_file_real d filename l s l' s' :
  organize_file false d filename l s = (l', s') →
  (l' = l ∧ fs s' = fs s)
  ∨ (∃ folder x,
       folder ∈ Dict.keys (file_extensions s)
       ∧ fs s !! (filename :: d) = Some (File x)
       ∧ organized_counts l' = incr folder (organized_counts l)
       ∧ current_batch l'
         = current_batch l ++ [(filename :: d, filename :: folder :: d)]
       ∧ Shutil.move (filename :: d) (filename :: folder :: d) (fs s)
         = Ok (fs s')).
Proof.
  unfold organize_file. destruct (Os.isfile _ _) eqn:Hfile.
  2: { intros [= <- <-]. by left. }
  destruct (is_ignored _ _); [intros [= <- <-]; by left|].
  destruct (try_folders _ _ _ _ _ _) as [[moved l1] s1] eqn:Htry.
  apply try_folders_real in Htry as [(-> & -> & Hfs)|(c & -> & ? & ? & ? & ?)].
  - intros [= <- <-]. by left.
  - intros [= <- <-]. right. apply isfile_Some in Hfile as [x Hx].
    by exists c, x.
Qed.

Lemma path_ne_length (p q : list string) : length p ≠ length q → p ≠ q.
Proof. congruence. Qed.

Ltac path_ne :=
  first [ done
        | congruence
        | apply path_ne_length; simpl; lia
        | intros [= ?]; simplify_eq; done ].




(** ** Listing and folder creation *)

Lemma child_of_Some (d p : list string) name :
  Os.child_of d p = Some name ↔ p = name :: d.
Proof.
  unfold Os.child_of. destruct p as [|n d']; [done|].
  case_decide; naive_solver.
Qed.

Lemma entries_elem (d : list string) (m : gmap (list string) node) name :
  name ∈ Os.entries d m ↔ is_Some (m !! (name :: d)).
Proof.
  unfold Os.entries. rewrite list_elem_of_omap. split.
  - intros ([p v] & Hin & Hc). apply child_of_Some in Hc. simpl in Hc. subst p.
    apply elem_of_map_to_list in Hin. by exists v.
  - intros [v Hv]. exists (name :: d, v). split.
    + by apply elem_of_map_to_list.
    + by apply child_of_Some.
Qed.

Lemma entries_NoDup (d : list string) (m : gmap (list string) node) :
  NoDup (Os.entries d m).
Proof.
  unfold Os.entries. pose proof (NoDup_fst_map_to_list m) as Hnd.
  induction (map_to_list m) as [|[p v] l IH]; simpl in *; [constructor|].
  apply NoDup_cons in Hnd as [Hp Hnd].
  destruct (Os.child_of d p) as [name|] eqn:Hc; [|by apply IH].
  apply child_of_Some in Hc as ->. constructor; [|by apply IH].
  intros ([p' v'] & Hin & Hc)%list_elem_of_omap.
  apply child_of_Some in Hc. simpl in Hc. subst p'.
  apply Hp. apply list_elem_of_fmap. by exists (name :: d, v').
Qed.

Lemma create_folders_real d folders s :
  fs s !! d = Some Dir →
  ∃ s', create_folders false d folders s = (None, s')
        ∧ fs s' !! d = Some Dir
        ∧ ∀ p, fs s' !! p =
               match fs s !! p with
               | Some v => Some v
               | None =>
                   if bool_decide (p ∈ (λ folder, folder :: d) <$> folders)
                   then Some Dir else None
               end.
Proof.
  revert s. induction folders as [|c folders IH]; intros s Hd; simpl.
  { exists s. split_and!; [done..|]. intros p. by destruct (fs s !! p). }
  unfold Os.path_exists at 1. destruct (fs s !! (c :: d)) as [v|] eqn:Hc.
  - destruct (IH s Hd) as (s' & -> & Hd' & Hlook). exists s'.
    split_and!; [done..|]. intros p. rewrite Hlook.
    destruct (fs s !! p) eqn:Hp; [done|].
    assert (p ≠ c :: d) by congruence.
    repeat case_bool_decide; set_solver.
  - assert (Os.makedirs (c :: d) (fs s) = Ok (<[c :: d := Dir]> (fs s))) as ->.
    { unfold Os.makedirs, Os.mkdir, Os.path_exists. simpl. by rewrite Hd, Hc. }
    set (s1 := add_output _ _).
    destruct (IH s1) as (s' & -> & Hd' & Hlook).
    { simpl. rewrite lookup_insert_ne; [done|path_ne]. }
    exists s'. split_and!; [done..|]. intros p. rewrite Hlook. simpl.
    destruct (decide (p = c :: d)) as [->|Hne].
    + rewrite lookup_insert_eq, Hc. rewrite bool_decide_eq_true_2; [done|set_solver].
    + rewrite lookup_insert_ne by done. destruct (fs s !! p); [done|].
      repeat case_bool_decide; set_solver.
Qed.

(** ** Organize, then undo *)





(** Why the destinations have to be free: a file that is already at the
    destination is replaced by the move, without an error, and the undo
    cannot bring it back. *)
Lemma occupied_destination_is_lost :
  let s1 := (organize_files false occupied).2 in
  let s2 := (undo_changes s1).2 in
  fs occupied !! ["a.jpg"; "Images"; "dir"] = Some (File "old")
  ∧ output_text s1
    = [ CreatedFolder "Documents"; CreatedFolder "Audio"; CreatedFolder "Videos";
        CreatedFolder "Archives"; CreatedFolder "Scripts";
        CreatedFolder "Executables"; CreatedFolder "Fonts";
        CreatedFolder "Torrents";
        TotalOrganized 1; OrganizedInto; CategoryCount "Images" 1 ]
  ∧ fs s1 !! ["a.jpg"; "Images"; "dir"] = Some (File "new")
  ∧ (undo_changes s1).1 = UndoDone 1
  ∧ fs s2 !! ["a.jpg"; "dir"] = Some (File "new")
  ∧ fs s2 !! ["a.jpg"; "Images"; "dir"] = None.
Proof. vm_compute. done. Qed.

(** ** The selected directory *)

(** C10, as the program has it. Organize first checks that a directory is
    selected: when none is, it shows the error box and returns, and nothing
    else of the state changes, neither the file system nor the undo stack.
    That the selected directory exists is not checked: on a directory that
    is missing a dry run ends with the exception raised by the listing,
    the file system and the undo stack being as before. *)
Theorem organize_checks_selection (dry_run : bool) (s : state) :
  (selected_directory s = None →
   organize_files dry_run s
   = (NoDirectorySelected, with_dialogs (dialogs s ++ [PleaseSelectDirectory]) s))
  ∧ (∀ d, selected_directory s = Some d → fs s !! d = None →
          ∃ s', organize_files true s = (Uncaught FileNotFoundError, s')
                ∧ fs s' = fs s ∧ undo_stack s' = undo_stack s).
Proof.
  split.
  - intros Hsel. unfold organize_files. by rewrite Hsel.
  - intros d Hsel Hd. unfold organize_files. rewrite Hsel.
    set (s0 := with_status_var Organizing (with_output_text [] s)).
    pose proof (create_folders_globals true d (Dict.keys (file_extensions s0)) s0)
      as Hg.
    destruct (create_folders_dry d (Dict.keys (file_extensions s0)) s0)
      as (s' & Hcf & Hfs).
    rewrite Hcf in *. simpl in *. unfold Os.listdir. rewrite Hfs. simpl.
    rewrite Hd. exists s'. split_and!; [done..|].
    by destruct Hg as (_ & _ & _ & _ & _ & -> & _).
Qed.

Lemma organize_checks_selection_witness :
  (selected_directory (startup ∅ None) = None
   ∧ (organize_files false (startup ∅ None)).1 = NoDirectorySelected)
  ∧ (selected_directory gone = Some ["gone"]
     ∧ fs gone !! ["gone"] = None
     ∧ (organize_files true gone).1 = Uncaught FileNotFoundError).
Proof.
  split.
  - split; [reflexivity|].
    rewrite (proj1 (organize_checks_selection false (startup ∅ None)) eq_refl).
    reflexivity.
  - assert (fs gone !! ["gone"] = None) as H by (vm_compute; reflexivity).
    split_and!; [reflexivity | exact H |].
    destruct (proj2 (organize_checks_selection true gone) ["gone"] eq_refl H)
      as (s' & -> & _). reflexivity.
Defined.

(** C10, as stated, fails: a real run on a directory that has been removed
    does not fail; it makes the directory anew, with the category folders
    in it, and completes. *)
Lemma missing_directory_is_made :
  selected_directory gone = Some ["gone"]
  ∧ fs gone !! ["gone"] = None
  ∧ (organize_files false gone).1
    = Completed
        {| organized_counts :=
             (λ folder, (folder, 0)) <$> Dict.keys (categories default_config);
           current_batch := [] |}
  ∧ fs (organize_files false gone).2 !! ["gone"] = Some Dir
  ∧ fs (organize_files false gone).2 !! ["Images"; "gone"] = Some Dir.
Proof. vm_compute. done. Qed.

(** ** Counts *)

Lemma incr_cons folder k n (counts : dict nat) :
  incr folder ((k, n) :: counts)
  = if decide (k = folder) then (k, n + 1) :: counts
    else (k, n) :: incr folder counts.
Proof.
  unfold incr. simpl. case_decide; [done|].
  by destruct (Dict.get folder counts).
Qed.

Lemma incr_comm a b (counts : dict nat) :
  incr a (incr b counts) = incr b (incr a counts).
Proof.
  induction counts as [|[k n] counts IH]; [done|].
  rewrite !incr_cons.
  destruct (decide (k = b)), (decide (k = a)); rewrite ?incr_cons;
    repeat case_decide; simplify_eq; try done.
  by rewrite IH.
Qed.

Lemma count_file_comm d m fe ign counts f g :
  count_file d m fe ign (count_file d m fe ign counts f) g
  = count_file d m fe ign (count_file d m fe ign counts g) f.
Proof.
  unfold count_file.
  destruct (Os.isfile (f :: d) m), (Os.isfile (g :: d) m); try done.
  destruct (classify f fe ign), (classify g fe ign); try done.
  apply incr_comm.
Qed.

Lemma foldl_comm_Permutation {A B} (f : B → A → B) (l k : list A) :
  (∀ b x y, f (f b x) y = f (f b y) x) →
  l ≡ₚ k → ∀ b, foldl f b l = foldl f b k.
Proof.
  intros Hf Hperm. induction Hperm as [|x l k _ IH|x y l|l k j _ IH1 _ IH2];
    intros b; simpl.
  - done.
  - apply IH.
  - by rewrite Hf.
  - by rewrite IH1.
Qed.

Lemma foldl_filter_neutral {A B} (f : B → A → B) (P : A → bool) (l : list A) :
  (∀ b x, P x = false → f b x = b) →
  ∀ b, foldl f b l = foldl f b (filter (λ x, P x = true) l).
Proof.
  intros Hf. induction l as [|x l IH]; intros b; simpl; [done|].
  destruct (P x) eqn:HP.
  - rewrite filter_cons_True by done. simpl. apply IH.
  - rewrite filter_cons_False by congruence. rewrite Hf by done. apply IH.
Qed.

Lemma foldl_ext_in {A B} (f g : B → A → B) (l : list A) :
  (∀ b x, x ∈ l → f b x = g b x) → ∀ b, foldl f b l = foldl g b l.
Proof.
  induction l as [|x l IH]; intros Hfg b; simpl; [done|].
  rewrite Hfg by set_solver. apply IH. intros. apply Hfg. set_solver.
Qed.

(** ** The report only grows *)

Lemma try_folders_output dry_run d filename items l s msg :
  msg ∈ output_text s →
  msg ∈ output_text (try_folders dry_run d filename items l s).2.
Proof.
  revert s. induction items as [|[folder exts] items IH]; intros s Hin; simpl.
  - done.
  - destruct (any_endswith _ _); [|by apply IH].
    destruct dry_run; simpl; [set_solver|].
    destruct (Shutil.move _ _ _); simpl; [done|].
    apply IH. simpl. set_solver.
Qed.

Lemma organize_file_output dry_run d filename l s msg :
  msg ∈ output_text s →
  msg ∈ output_text (organize_file dry_run d filename l s).2.
Proof.
  intros Hin. unfold organize_file. destruct (Os.isfile _ _); [|done].
  destruct (is_ignored _ _); [done|].
  pose proof (try_folders_output dry_run d filename (file_extensions s) l s msg Hin)
    as H.
  destruct (try_folders _ _ _ _ _ _) as [[moved l'] s']. simpl in *.
  destruct moved; simpl; [done | set_solver].
Qed.

Lemma organize_loop_output dry_run d names l s msg :
  msg ∈ output_text s →
  msg ∈ output_text (organize_loop dry_run d names l s).2.
Proof.
  revert l s. induction names as [|f names IH]; intros l s Hin; simpl; [done|].
  pose proof (organize_file_output dry_run d f l s msg Hin) as H.
  destruct (organize_file _ _ _ _ _) as [l' s']. by apply IH.
Qed.

Lemma summary_lines_output counts s msg :
  msg ∈ output_text s →
  msg ∈ output_text
          (foldl (λ s fc, if decide (0 < fc.2)
                          then add_output (CategoryCount fc.1 fc.2) s else s)
             s counts).
Proof.
  revert s. induction counts as [|fc counts IH]; intros s Hin; simpl; [done|].
  apply IH. case_decide; simpl; set_solver.
Qed.

Lemma summary_output counts s msg :
  msg ∈ output_text s → msg ∈ output_text (summary counts s).
Proof.
  intros Hin. unfold summary. case_decide; simpl; [set_solver|].
  apply summary_lines_output. simpl. set_solver.
Qed.

(** ** The counts of a dry run and of a real run *)

Lemma organize_file_dry_counts d filename l s :
  organized_counts (organize_file true d filename l s).1
  = count_file d (fs s) (file_extensions s) (ignore_list s)
      (organized_counts l) filename.
Proof.
  unfold organize_file, count_file, classify. destruct (Os.isfile _ _); [|done].
  destruct (is_ignored _ _); [done|].
  rewrite try_folders_dry. by destruct (first_folder _ _).
Qed.

Lemma organize_loop_dry_counts d names l s :
  organized_counts (organize_loop true d names l s).1
  = foldl (count_file d (fs s) (file_extensions s) (ignore_list s))
      (organized_counts l) names.
Proof.
  revert l s. induction names as [|f names IH]; intros l s; simpl; [done|].
  pose proof (organize_file_dry_counts d f l s) as Hc.
  pose proof (organize_file_dry d f l s) as [Hfs _].
  pose proof (organize_file_globals true d f l s) as (_ & Hfe & _ & Hign & _).
  destruct (organize_file _ _ _ _ _) as [l1 s1]. simpl in *.
  by rewrite IH, Hfs, Hfe, Hign, Hc.
Qed.

Lemma try_folders_real_counts d filename items l s moved l1 s1 :
  try_folders false d filename items l s = (moved, l1, s1) →
  (∀ e, ErrorMoving filename e ∉ output_text s1) →
  match first_folder filename items with
  | Some folder =>
      moved = true ∧ organized_counts l1 = incr folder (organized_counts l)
  | None => moved = false ∧ l1 = l ∧ output_text s1 = output_text s
  end.
Proof.
  revert s. induction items as [|[folder exts] items IH]; intros s; simpl.
  - by intros [= <- <- <-] _.
  - destruct (any_endswith filename exts); [|apply IH].
    destruct (Shutil.move _ _ _) as [m'|e] eqn:Hmv.
    + by intros [= <- <- <-] _.
    + intros Htry Hno. exfalso. apply (Hno e).
      change s1 with (moved, l1, s1).2. rewrite <- Htry.
      apply try_folders_output. simpl. set_solver.
Qed.

Lemma organize_file_real_counts d filename l s l1 s1 :
  organize_file false d filename l s = (l1, s1) →
  (∀ e, ErrorMoving filename e ∉ output_text s1) →
  organized_counts l1
  = count_file d (fs s) (file_extensions s) (ignore_list s)
      (organized_counts l) filename.
Proof.
  unfold organize_file, count_file, classify. destruct (Os.isfile _ _).
  2: { by intros [= <- <-]. }
  destruct (is_ignored _ _); [by intros [= <- <-]|].
  destruct (try_folders _ _ _ _ _ _) as [[moved l2] s2] eqn:Htry.
  intros Hres Hno.
  assert (∀ e, ErrorMoving filename e ∉ output_text s2) as Hno2.
  { intros e Hin. apply (Hno e). destruct moved; simplify_eq; [done|].
    simpl. set_solver. }
  pose proof (try_folders_real_counts _ _ _ _ _ _ _ _ Htry Hno2) as H.
  destruct (first_folder _ _).
  - destruct H as [-> H]. by simplify_eq.
  - destruct H as (-> & -> & _). by simplify_eq.
Qed.

Lemma organize_file_real_isfile d filename l s l1 s1 g :
  organize_file false d filename l s = (l1, s1) → g ≠ filename →
  Os.isfile (g :: d) (fs s1) = Os.isfile (g :: d) (fs s).
Proof.
  intros Hstep Hne. unfold Os.isfile.
  apply organize_file_real in Hstep as [[_ ->]|(c & x & _ & Hx & _ & _ & Hmv)];
    [done|].
  rewrite (move_file_frame _ _ (g :: d) _ _ x Hx Hmv); [done|path_ne..].
Qed.

Lemma organize_loop_real_counts d names l s l' s' :
  NoDup names →
  organize_loop false d names l s = (l', s') →
  (∀ f e, ErrorMoving f e ∉ output_text s') →
  organized_counts l'
  = foldl (count_file d (fs s) (file_extensions s) (ignore_list s))
      (organized_counts l) names.
Proof.
  revert l s. induction names as [|f names IH]; intros l s Hnd; simpl.
  { by intros [= <- <-]. }
  apply NoDup_cons in Hnd as [Hf Hnd].
  destruct (organize_file false d f l s) as [l1 s1] eqn:Hstep.
  intros Hloop Hno.
  pose proof (organize_file_globals false d f l s) as Hg.
  rewrite Hstep in Hg. destruct Hg as (_ & Hfe & _ & Hign & _). simpl in *.
  rewrite (IH _ _ Hnd Hloop Hno), Hfe, Hign.
  rewrite (organize_file_real_counts _ _ _ _ _ _ Hstep).
  2: { intros e Hin. apply (Hno f e).
       change s' with (l', s').2. rewrite <- Hloop.
       by apply organize_loop_output. }
  apply foldl_ext_in. intros b g Hg. unfold count_file.
  rewrite (organize_file_real_isfile _ _ _ _ _ _ g Hstep); [done|].
  intros ->. done.
Qed.

Lemma count_files_listing (d : list string) (m1 m2 : gmap (list string) node)
    fe ign counts :
  (∀ p, Os.isfile p m1 = Os.isfile p m2) →
  foldl (count_file d m1 fe ign) counts (Os.entries d m1)
  = foldl (count_file d m2 fe ign) counts (Os.entries d m2).
Proof.
  intros Hfile.
  rewrite (foldl_ext_in (count_file d m1 fe ign) (count_file d m2 fe ign)).
  2: { intros b x _. unfold count_file. by rewrite Hfile. }
  rewrite (foldl_filter_neutral _ (λ x, Os.isfile (x :: d) m2) (Os.entries d m1)).
  2: { intros b x Hx. unfold count_file. by rewrite Hx. }
  rewrite (foldl_filter_neutral _ (λ x, Os.isfile (x :: d) m2) (Os.entries d m2)).
  2: { intros b x Hx. unfold count_file. by rewrite Hx. }
  apply foldl_comm_Permutation; [intros; apply count_file_comm|].
  apply NoDup_Permutation; [apply NoDup_filter, entries_NoDup..|].
  intros x. rewrite !list_elem_of_filter, !entries_elem. split.
  - intros [Hx _]. split; [done|]. apply isfile_Some in Hx as [? ->]. done.
  - intros [Hx _]. split; [done|]. rewrite <- Hfile in Hx.
    apply isfile_Some in Hx as [? ->]. done.
Qed.

Lemma organize_files_dry s :
  fs (organize_files true s).2 = fs s
  ∧ undo_stack (organize_files true s).2 = undo_stack s
  ∧ ∀ l, (organize_files true s).1 = Completed l → current_batch l = [].
Proof.
  assert (∀ l, (organize_files true s).1 = Completed l → current_batch l = [])
    as Hbatch.
  { unfold organize_files. destruct (selected_directory s) as [d|]; [|done].
    set (s0 := with_status_var Organizing (with_output_text [] s)).
    destruct (create_folders_dry d (Dict.keys (file_extensions s0)) s0)
      as (s1 & -> & _).
    destruct (Os.listdir _ _) as [names|e]; [|done].
    match goal with |- context [organize_loop ?a ?b ?c ?d ?e] =>
      pose proof (organize_loop_dry b c d e) as [_ Hb];
      destruct (organize_loop a b c d e) as [l2 s2] end.
    simpl in *. by intros l [= <-]. }
  split_and!; [| |exact Hbatch].
  - unfold organize_files. destruct (selected_directory s) as [d|]; [|done].
    set (s0 := with_status_var Organizing (with_output_text [] s)).
    destruct (create_folders_dry d (Dict.keys (file_extensions s0)) s0)
      as (s1 & -> & Hfs1).
    destruct (Os.listdir _ _) as [names|e]; [|done].
    match goal with |- context [organize_loop ?a ?b ?c ?d ?e] =>
      pose proof (organize_loop_dry b c d e) as [Hfs2 Hb];
      destruct (organize_loop a b c d e) as [l2 s2] end.
    simpl in *. rewrite Hb. simpl. by rewrite summary_fs, Hfs2, Hfs1.
  - rewrite organize_files_undo_stack.
    destruct (organize_files true s).1 as [| |l] eqn:Hout; [done..|].
    by rewrite (Hbatch l).
Qed.

(** C3, as the program has it. A dry run leaves the file system and the
    undo stack as they are, whatever the state.  When it completes, its
    batch is empty, and its counts are those of every real run from the
    same state that completes and reports no move that failed. *)
Theorem dry_run_previews (s : state) :
  fs (organize_files true s).2 = fs s
  ∧ undo_stack (organize_files true s).2 = undo_stack s
  ∧ (∀ ld, (organize_files true s).1 = Completed ld →
       current_batch ld = []
       ∧ ∀ lr sr,
           organize_files false s = (Completed lr, sr) →
           (∀ f e, ErrorMoving f e ∉ output_text sr) →
           organized_counts ld = organized_counts lr).
Proof.
  destruct (organize_files_dry s) as (Hfs & Hst & Hbatch).
  split_and!; [done..|]. intros ld Hdry. split; [by apply Hbatch|].
  intros lr sr Hreal Hno.
  unfold organize_files in *.
  destruct (selected_directory s) as [d|]; [|done].
  set (s0 := with_status_var Organizing (with_output_text [] s)) in *.
  destruct (create_folders_dry d (Dict.keys (file_extensions s0)) s0)
    as (sd & Hcfd & Hfsd).
  pose proof (create_folders_globals true d (Dict.keys (file_extensions s0)) s0)
    as Hgd.
  rewrite Hcfd in Hdry, Hgd. simpl in Hgd.
  unfold Os.listdir in Hdry. rewrite Hfsd in Hdry. simpl fs in Hdry.
  destruct (fs s !! d) as [[x|]|] eqn:Hd; [done| |done].
  destruct (create_folders_real d (Dict.keys (file_extensions s0)) s0 Hd)
    as (sr0 & Hcfr & Hd' & Hlook).
  pose proof (create_folders_globals false d (Dict.keys (file_extensions s0)) s0)
    as Hgr.
  rewrite Hcfr in *. simpl in Hgr. unfold Os.listdir in Hreal. rewrite Hd' in Hreal.
  destruct Hgd as (_ & Hfed & _ & Hignd & _), Hgr as (_ & Hfer & _ & Hignr & _).
  rewrite Hfed, Hfer in *.
  match type of Hdry with context [organize_loop ?a ?b ?c ?d ?e] =>
    pose proof (organize_loop_dry_counts b c d e) as Hcd;
    destruct (organize_loop a b c d e) as [l2 s2] end.
  simpl in Hdry, Hcd. injection Hdry as <-.
  destruct (organize_loop false _ _ _ _) as [lr1 sr1] eqn:Hloop.
  injection Hreal as -> <-.
  rewrite Hcd. erewrite organize_loop_real_counts; [|apply entries_NoDup|exact Hloop|].
  - simpl organized_counts. rewrite Hfed, Hfer, Hignd, Hignr, Hfsd. simpl fs.
    symmetry. apply count_files_listing.
    intros p. unfold Os.isfile. rewrite Hlook. simpl.
    destruct (fs s !! p) as [[|]|]; [done..|]. by case_bool_decide.
  - intros f e Hin. apply (Hno f e).
    destruct (current_batch lr); simpl; by apply summary_output.
Qed.

Lemma dry_run_previews_witness :
  ∃ ld lr sr,
    (organize_files true scenario).1 = Completed ld
    ∧ organize_files false scenario = (Completed lr, sr)
    ∧ (∀ f e, ErrorMoving f e ∉ output_text sr)
    ∧ organized_counts ld = organized_counts lr
    ∧ Dict.get "Images" (organized_counts ld) = Some 1
    ∧ Dict.get "Audio" (organized_counts ld) = Some 0.
Proof.
  assert ((organize_files true scenario).1
          = Completed {| organized_counts := organized_counts scenario_locals;
                         current_batch := [] |}) as H1
    by (vm_compute; reflexivity).
  assert (organize_files false scenario
          = (Completed scenario_locals, (organize_files false scenario).2))
    as Hrun by (vm_compute; reflexivity).
  assert (∀ f e, ErrorMoving f e ∉ output_text (organize_files false scenario).2)
    as H2.
  { intros f e Hin. vm_compute in Hin.
    repeat (apply elem_of_cons in Hin as [Hin|Hin]; [discriminate|]).
    by apply elem_of_nil in Hin. }
  eexists _, _, _. split_and!; [exact H1 | exact Hrun | exact H2 | | |].
  - exact (proj2 (proj2 (proj2 (dry_run_previews scenario)) _ H1) _ _ Hrun H2).
  - vm_compute. reflexivity.
  - vm_compute. reflexivity.
Defined.

(** C3, as stated, fails: with a regular file named as a category, the dry
    run counts the picture under [Images] and the real run, whose move into
    [Images] fails, counts nothing. *)
Lemma dry_run_counts_a_move_that_fails :
  (∃ ld lr,
     (organize_files true blocked).1 = Completed ld
     ∧ (organize_files false blocked).1 = Completed lr
     ∧ Dict.get "Images" (organized_counts ld) = Some 1
     ∧ Dict.get "Images" (organized_counts lr) = Some 0)
  ∧ ErrorMoving "a.jpg" NotADirectoryError
    ∈ output_text (organize_files false blocked).2.
Proof.
  split.
  - eexists _, _. split_and!; [vm_compute; reflexivity..].
  - vm_compute. set_solver.
Qed.

(** ** A move that fails *)

Lemma try_folders_skip dry_run d filename pre rest l s :
  first_folder filename pre = None →
  try_folders dry_run d filename (pre ++ rest) l s
  = try_folders dry_run d filename rest l s.
Proof.
  induction pre as [|[folder exts] pre IH]; simpl; [done|].
  destruct (any_endswith filename exts); [done | exact IH].
Qed.

(** When the move into the first matching folder fails and no later folder
    matches, the file stays where it is: no record, no count, the file
    system untouched; the report has the error and, after it, the line that
    says that no category was found. *)
Lemma failed_move_no_other_match d filename pre folder exts rest l s e :
  Os.isfile (filename :: d) (fs s) = true →
  is_ignored filename (ignore_list s) = false →
  file_extensions s = pre ++ (folder, exts) :: rest →
  first_folder filename pre = None →
  any_endswith filename exts = true →
  Shutil.move (filename :: d) (filename :: folder :: d) (fs s) = Raise e →
  first_folder filename rest = None →
  organize_file false d filename l s
  = (l,
     add_output (NoCategoryFound filename)
       (add_output (ErrorMoving filename e)
          (add_log (ErrorMove filename e) s))).
Proof.
  intros Hfile Hign Hfe Hpre Hany Hmv Hrest. unfold organize_file.
  rewrite Hfile, Hign, Hfe, (try_folders_skip _ _ _ _ _ _ _ Hpre). simpl.
  rewrite Hany, Hmv. by rewrite try_folders_unmatched.
Qed.

(** C4. The archive is classified under [Archives]; the move into that
    folder fails and the error is reported; the loop then goes on with the
    folders that follow, finds [Tarballs], and moves the file there: the
    batch holds a record for the file whose move failed, the file has left
    its place, and it is counted. *)
Theorem failed_move_tries_next_folder :
  classify "backup.tar.gz" (file_extensions overlap) (ignore_list overlap)
  = Matched "Archives"
  ∧ Shutil.move ["backup.tar.gz"; "dir"] ["backup.tar.gz"; "Archives"; "dir"]
      (fs overlap)
    = Raise NotADirectoryError
  ∧ (∃ l, (organize_files false overlap).1 = Completed l
          ∧ current_batch l
            = [(["backup.tar.gz"; "dir"], ["backup.tar.gz"; "Tarballs"; "dir"])]
          ∧ Dict.get "Archives" (organized_counts l) = Some 0
          ∧ Dict.get "Tarballs" (organized_counts l) = Some 1)
  ∧ ErrorMoving "backup.tar.gz" NotADirectoryError
    ∈ output_text (organize_files false overlap).2
  ∧ fs (organize_files false overlap).2 !! ["backup.tar.gz"; "dir"] = None
  ∧ fs (organize_files false overlap).2 !! ["backup.tar.gz"; "Tarballs"; "dir"]
    = Some (File "B").
Proof.
  split; [vm_compute; reflexivity|].
  split; [vm_compute; reflexivity|].
  split; [eexists; split_and!; vm_compute; reflexivity|].
  split; [vm_compute; set_solver|].
  split; vm_compute; reflexivity.
Qed.

(** * Further properties *)

(** ** How an organize ends *)




(** ** The counts of the report *)

Lemma incr_keys folder (counts : dict nat) : (incr folder counts).*1 = counts.*1.
Proof.
  induction counts as [|[k n] counts IH]; [done|].
  rewrite incr_cons. case_decide; rewrite !fmap_cons; [done | by rewrite IH].
Qed.

Lemma incr_sum folder (counts : dict nat) :
  folder ∈ counts.*1 →
  sum_list (incr folder counts).*2 = sum_list counts.*2 + 1.
Proof.
  induction counts as [|[k n] counts IH]; [by intros ?%elem_of_nil|].
  rewrite fmap_cons. intros Hin. rewrite incr_cons.
  case_decide; [rewrite !fmap_cons; simpl; lia|].
  assert (folder ∈ counts.*1) as Hin' by set_solver.
  specialize (IH Hin'). rewrite !fmap_cons. simpl in *. lia.
Qed.

Lemma zero_counts_keys (ks : list string) :
  ((λ folder : string, (folder, 0)) <$> ks).*1 = ks.
Proof. induction ks as [|k ks IH]; [done|]. rewrite !fmap_cons, IH. done. Qed.

Lemma zero_counts_sum (ks : list string) :
  sum_list ((λ folder : string, (folder, 0)) <$> ks).*2 = 0.
Proof. induction ks as [|k ks IH]; [done|]. rewrite !fmap_cons. simpl. exact IH. Qed.

Lemma try_folders_keys dry_run d filename items l s :
  (organized_counts (try_folders dry_run d filename items l s).1.2).*1
  = (organized_counts l).*1.
Proof.
  revert s. induction items as [|[folder exts] items IH]; intros s; simpl; [done|].
  destruct (any_endswith _ _); [|apply IH].
  destruct dry_run; simpl; [apply incr_keys|].
  destruct (Shutil.move _ _ _); simpl; [apply incr_keys | apply IH].
Qed.

Lemma organize_loop_keys dry_run d names l s :
  (organized_counts (organize_loop dry_run d names l s).1).*1
  = (organized_counts l).*1.
Proof.
  revert l s. induction names as [|f names IH]; intros l s; simpl; [done|].
  assert ((organized_counts (organize_file dry_run d f l s).1).*1
          = (organized_counts l).*1) as Hstep.
  { unfold organize_file. destruct (Os.isfile _ _); [|done].
    destruct (is_ignored _ _); [done|].
    pose proof (try_folders_keys dry_run d f (file_extensions s) l s) as H.
    destruct (try_folders _ _ _ _ _ _) as [[moved l1] s1]. by destruct moved. }
  destruct (organize_file _ _ _ _ _) as [l1 s1]. simpl in *.
  by rewrite IH.
Qed.

(** X3. The counts with which an organize ends have one entry for each
    category of the configuration, in its order, whether the run is dry
    or not. *)
Theorem counts_for_every_category (dry_run : bool) (s : state) (l : locals) :
  (organize_files dry_run s).1 = Completed l →
  (organized_counts l).*1 = Dict.keys (file_extensions s).
Proof.
  unfold organize_files. destruct (selected_directory s) as [d|]; [|done].
  set (s0 := with_status_var Organizing (with_output_text [] s)).
  pose proof (create_folders_globals dry_run d (Dict.keys (file_extensions s0)) s0)
    as Hg.
  destruct (create_folders _ _ _ _) as [[e|] s1]; [done|]. simpl in Hg.
  destruct Hg as (_ & Hfe & _).
  destruct (Os.listdir _ _) as [names|e]; [|done].
  match goal with |- context [organize_loop ?a ?b ?c ?d ?e] =>
    pose proof (organize_loop_keys a b c d e) as Hk;
    destruct (organize_loop a b c d e) as [l2 s2] end.
  simpl in *. intros [= <-]. by rewrite Hk, Hfe, zero_counts_keys.
Qed.

Lemma counts_for_every_category_witness :
  (organized_counts scenario_locals).*1
  = Dict.keys (file_extensions scenario).
Proof.
  apply (counts_for_every_category false). vm_compute. reflexivity.
Defined.

Lemma organize_loop_total d names l s l' s' :
  Dict.keys (file_extensions s) ⊆ (organized_counts l).*1 →
  organize_loop false d names l s = (l', s') →
  sum_list (organized_counts l').*2 + length (current_batch l)
  = sum_list (organized_counts l).*2 + length (current_batch l').
Proof.
  revert l s. induction names as [|f names IH]; intros l s Hkeys; simpl.
  { by intros [= <- <-]. }
  destruct (organize_file false d f l s) as [l1 s1] eqn:Hstep.
  pose proof (organize_file_globals false d f l s) as Hg.
  rewrite Hstep in Hg. destruct Hg as (_ & Hfe & _). simpl in Hfe.
  intros Hloop.
  apply organize_file_real in Hstep as [[-> _]|(c & x & Hc & _ & Hcnt & Hb & _)].
  - apply (IH _ _) in Hloop; [done | by rewrite Hfe].
  - apply (IH _ _) in Hloop.
    + rewrite Hcnt, Hb, length_app, incr_sum in Hloop; [simpl in Hloop; lia|].
      by apply Hkeys.
    + by rewrite Hfe, Hcnt, incr_keys.
Qed.

(** X4. When a real organize completes, the total of its counts, which
    the report gives as the number of files organized, is the number of
    moves recorded in its batch. *)
Theorem total_is_batch_size (s s' : state) (l : locals) :
  organize_files false s = (Completed l, s') →
  sum_list (organized_counts l).*2 = length (current_batch l)
  ∧ TotalOrganized (length (current_batch l)) ∈ output_text s'.
Proof.
  unfold organize_files. destruct (selected_directory s) as [d|]; [|done].
  set (s0 := with_status_var Organizing (with_output_text [] s)).
  pose proof (create_folders_globals false d (Dict.keys (file_extensions s0)) s0)
    as Hg.
  destruct (create_folders _ _ _ _) as [[e|] s1]; [done|]. simpl in Hg.
  destruct Hg as (_ & Hfe & _).
  destruct (Os.listdir _ _) as [names|e]; [|done].
  destruct (organize_loop _ _ _ _ _) as [l2 s2] eqn:Hloop.
  intros [= <- <-].
  apply organize_loop_total in Hloop.
  2: { simpl. by rewrite zero_counts_keys. }
  simpl in Hloop. rewrite zero_counts_sum in Hloop. split; [lia|].
  assert (TotalOrganized (length (current_batch l2))
          ∈ output_text (summary (organized_counts l2) s2)) as Hin.
  { replace (length (current_batch l2))
      with (sum_list (organized_counts l2).*2) by lia.
    unfold summary. case_decide; simpl; [set_solver|].
    apply summary_lines_output. simpl. set_solver. }
  by destruct (current_batch l2).
Qed.

Lemma total_is_batch_size_witness :
  sum_list (organized_counts scenario_locals).*2 = 2
  ∧ TotalOrganized 2 ∈ output_text (organize_files false scenario).2.
Proof.
  apply (total_is_batch_size scenario). vm_compute. reflexivity.
Defined.

(** ** What a real organize leaves where it is *)

Lemma organize_file_moves d filename l s l' s' :
  organize_file false d filename l s = (l', s') →
  (l' = l ∧ fs s' = fs s)
  ∨ (∃ folder x,
       folder ∈ Dict.keys (file_extensions s)
       ∧ fs s !! (filename :: d) = Some (File x)
       ∧ is_ignored filename (ignore_list s) = false
       ∧ is_Some (first_folder filename (file_extensions s))
       ∧ Shutil.move (filename :: d) (filename :: folder :: d) (fs s)
         = Ok (fs s')).
Proof.
  unfold organize_file. destruct (Os.isfile _ _) eqn:Hfile.
  2: { intros [= <- <-]. by left. }
  destruct (is_ignored _ _) eqn:Hign; [intros [= <- <-]; by left|].
  destruct (first_folder filename (file_extensions s)) as [c0|] eqn:Hff.
  - destruct (try_folders _ _ _ _ _ _) as [[moved l1] s1] eqn:Htry.
    apply try_folders_real in Htry as [(-> & -> & Hfs)|(c & -> & ? & ? & ? & ?)].
    + intros [= <- <-]. by left.
    + intros [= <- <-]. right. apply isfile_Some in Hfile as [x Hx].
      exists c, x. split_and!; done.
  - rewrite (try_folders_unmatched _ _ _ _ _ _ Hff). intros [= <- <-]. by left.
Qed.

Lemma organize_loop_keeps d names l s l' s' name :
  organize_loop false d names l s = (l', s') →
  Os.isfile (name :: d) (fs s) = false
  ∨ is_ignored name (ignore_list s) = true
  ∨ first_folder name (file_extensions s) = None →
  fs s' !! (name :: d) = fs s !! (name :: d).
Proof.
  revert l s. induction names as [|g names IH]; intros l s; simpl.
  { by intros [= <- <-]. }
  destruct (organize_file false d g l s) as [l1 s1] eqn:Hstep.
  pose proof (organize_file_globals false d g l s) as Hg.
  rewrite Hstep in Hg. destruct Hg as (_ & Hfe & _ & Hign & _). simpl in *.
  intros Hloop Hstay.
  apply organize_file_moves in Hstep
    as [[_ Hfs]|(c & x & _ & Hx & Hni & Hff & Hmv)].
  - rewrite (IH _ _ Hloop); rewrite ?Hfs, ?Hfe, ?Hign; done.
  - assert (g ≠ name) as Hne.
    { intros ->. destruct Hstay as [Hf|[Hi|Hn]].
      - unfold Os.isfile in Hf. by rewrite Hx in Hf.
      - congruence.
      - rewrite Hn in Hff. by destruct Hff. }
    assert (fs s1 !! (name :: d) = fs s !! (name :: d)) as Hsame.
    { apply (move_file_frame _ _ _ _ _ x Hx Hmv); path_ne. }
    rewrite (IH _ _ Hloop); [done|].
    rewrite Hfe, Hign. unfold Os.isfile in *. by rewrite Hsame.
Qed.

Lemma organize_loop_frame d names l s l' s' (p : list string) :
  organize_loop false d names l s = (l', s') →
  (∀ f c, f ∈ names → c ∈ Dict.keys (file_extensions s) →
          p ≠ f :: d ∧ p ≠ f :: c :: d ∧ p ≠ f :: f :: c :: d) →
  fs s' !! p = fs s !! p.
Proof.
  revert l s. induction names as [|g names IH]; intros l s; simpl.
  { by intros [= <- <-]. }
  destruct (organize_file false d g l s) as [l1 s1] eqn:Hstep.
  pose proof (organize_file_globals false d g l s) as Hg.
  rewrite Hstep in Hg. destruct Hg as (_ & Hfe & _). simpl in *.
  intros Hloop Hp.
  rewrite (IH _ _ Hloop).
  2: { intros f c Hf Hc. apply Hp; [set_solver | by rewrite <- Hfe]. }
  apply organize_file_moves in Hstep as [[_ ->]|(c & x & Hc & Hx & _ & _ & Hmv)];
    [done|].
  destruct (Hp g c) as (? & ? & ?); [set_solver | done |].
  by apply (move_file_frame _ _ _ _ _ x Hx Hmv).
Qed.

(** The parts of a real organize of an existing directory. *)
Lemma organize_files_real_parts s d :
  selected_directory s = Some d →
  fs s !! d = Some Dir →
  ∃ scf l s',
    (∀ p, fs scf !! p =
          match fs s !! p with
          | Some v => Some v
          | None =>
              if bool_decide
                   (p ∈ (λ folder, folder :: d) <$> Dict.keys (file_extensions s))
              then Some Dir else None
          end)
    ∧ file_extensions scf = file_extensions s
    ∧ ignore_list scf = ignore_list s
    ∧ organize_loop false d (Os.entries d (fs scf))
        {| organized_counts :=
             (λ folder, (folder, 0)) <$> Dict.keys (file_extensions s);
           current_batch := [] |} scf = (l, s')
    ∧ organize_files false s
      = (Completed l,
         with_status_var OrganizationComplete
           (record_batch (current_batch l) (summary (organized_counts l) s')))
    ∧ fs (organize_files false s).2 = fs s'.
Proof.
  intros Hsel Hd. unfold organize_files. rewrite Hsel.
  set (s0 := with_status_var Organizing (with_output_text [] s)).
  pose proof (create_folders_globals false d (Dict.keys (file_extensions s0)) s0)
    as Hg.
  destruct (create_folders_real d (Dict.keys (file_extensions s0)) s0 Hd)
    as (scf & Hcf & Hd' & Hlook).
  rewrite Hcf in *. simpl in Hg. destruct Hg as (_ & Hfe & _ & Hign & _).
  unfold Os.listdir. rewrite Hd', Hfe.
  destruct (organize_loop _ _ _ _ _) as [l s'] eqn:Hloop.
  exists scf, l, s'. split_and!; try done.
  simpl. destruct (current_batch l); simpl; by rewrite summary_fs.
Qed.

(** X5. A real organize of an existing directory leaves every entry of
    that directory that is a folder, or a file that the classifier ignores
    or does not match, where it is, as it is. *)
Theorem unmatched_entries_stay (s : state) (d : list string) (name : string)
    (v : node) :
  selected_directory s = Some d →
  fs s !! d = Some Dir →
  fs s !! (name :: d) = Some v →
  v = Dir
  ∨ (∀ folder, classify name (file_extensions s) (ignore_list s)
               ≠ Matched folder) →
  fs (organize_files false s).2 !! (name :: d) = Some v.
Proof.
  intros Hsel Hd Hv Hstay.
  destruct (organize_files_real_parts s d Hsel Hd)
    as (scf & l & s' & Hlook & Hfe & Hign & Hloop & _ & ->).
  assert (fs scf !! (name :: d) = Some v) as Hv'. { by rewrite Hlook, Hv. }
  rewrite (organize_loop_keeps _ _ _ _ _ _ name Hloop); [done|].
  rewrite Hfe, Hign. unfold Os.isfile. rewrite Hv'.
  destruct Hstay as [->|Hno]; [by left|].
  unfold classify in Hno. destruct (is_ignored _ _); [by right; left|].
  destruct (first_folder _ _) as [c|]; [by destruct (Hno c) | by right; right].
Qed.

Lemma unmatched_entries_stay_witness :
  fs (organize_files false scenario).2 !! ["c.xyz"; "dir"] = Some (File "C")
  ∧ fs (organize_files false scenario).2 !! ["Thumbs.db"; "dir"]
    = Some (File "T").
Proof.
  assert (fs scenario !! ["dir"] = Some Dir) as Hd by (vm_compute; reflexivity).
  split.
  - apply (unmatched_entries_stay scenario ["dir"] "c.xyz" _ eq_refl Hd);
      [vm_compute; reflexivity|].
    right. intros folder. vm_compute. discriminate.
  - apply (unmatched_entries_stay scenario ["dir"] "Thumbs.db" _ eq_refl Hd);
      [vm_compute; reflexivity|].
    right. intros folder. vm_compute. discriminate.
Defined.

(** X6. Let the category names be single path components.  An organize of
    an existing directory changes nothing outside that directory, and
    nothing inside a sub-folder of it that is not named as a category: the
    listing is not recursive. *)
Theorem organize_stays_inside (dry_run : bool) (s : state) (d p : list string) :
  plain_names (file_extensions s) = true →
  selected_directory s = Some d →
  fs s !! d = Some Dir →
  ¬ d `suffix_of` p
  ∨ (∃ rest sub, p = rest ++ sub :: d ∧ rest ≠ []
                 ∧ sub ∉ Dict.keys (file_extensions s)) →
  fs (organize_files dry_run s).2 !! p = fs s !! p.
Proof.
  intros _ Hsel Hd Hp. destruct dry_run.
  { by rewrite (proj1 (organize_files_dry s)). }
  destruct (organize_files_real_parts s d Hsel Hd)
    as (scf & l & s' & Hlook & Hfe & Hign & Hloop & _ & ->).
  rewrite (organize_loop_frame _ _ _ _ _ _ p Hloop).
  - rewrite Hlook. destruct (fs s !! p); [done|].
    rewrite bool_decide_eq_false_2; [done|].
    intros (c & -> & Hc)%list_elem_of_fmap.
    destruct Hp as [Hp|(rest & sub & Heq & Hrest & _)].
    + apply Hp. by apply suffix_cons_r.
    + apply (f_equal length) in Heq. rewrite length_app in Heq. simpl in Heq.
      destruct rest; [done|]. simpl in Heq. lia.
  - rewrite Hfe. intros f c _ Hc.
    destruct Hp as [Hp|(rest & sub & -> & Hrest & Hsub)].
    + split_and!; intros ->; apply Hp.
      * by apply suffix_cons_r.
      * by do 2 apply suffix_cons_r.
      * by do 3 apply suffix_cons_r.
    + split_and!.
      * intros Heq. apply (f_equal length) in Heq. rewrite length_app in Heq.
        simpl in Heq. destruct rest; [done|]. simpl in Heq. lia.
      * intros Heq. apply (app_inj_2 rest [f] (sub :: d) (c :: d)) in Heq
          as [_ [= ->]]; done.
      * intros Heq. apply (app_inj_2 rest [f; f] (sub :: d) (c :: d)) in Heq
          as [_ [= ->]]; done.
Qed.

Lemma organize_stays_inside_witness :
  fs (organize_files false nested).2 !! ["e.jpg"] = Some (File "E")
  ∧ fs (organize_files false nested).2 !! ["b.jpg"; "sub"; "dir"]
    = Some (File "B")
  ∧ fs (organize_files false nested).2 !! ["a.jpg"; "Images"; "dir"]
    = Some (File "A").
Proof.
  assert (plain_names (file_extensions nested) = true) as Hpl by reflexivity.
  assert (fs nested !! ["dir"] = Some Dir) as Hd by (vm_compute; reflexivity).
  split_and!.
  - rewrite (organize_stays_inside false nested ["dir"] _ Hpl eq_refl Hd).
    + vm_compute. reflexivity.
    + left. intros [k Hk]. destruct k as [|? [|? ?]]; discriminate.
  - rewrite (organize_stays_inside false nested ["dir"] _ Hpl eq_refl Hd).
    + vm_compute. reflexivity.
    + right. exists ["b.jpg"], "sub". split_and!; [done..|].
      vm_compute. set_solver.
  - vm_compute. reflexivity.
Defined.

(** ** What organize and undo can assign *)

Lemma only_disk_and_report_refl s : only_disk_and_report s s.
Proof. by destruct s. Qed.

Lemma only_disk_and_report_trans s1 s2 s3 :
  only_disk_and_report s1 s2 → only_disk_and_report s2 s3 →
  only_disk_and_report s1 s3.
Proof. unfold only_disk_and_report. intros H1 H2. rewrite H2, H1. done. Qed.

Lemma only_disk_and_report_output m s : only_disk_and_report s (add_output m s).
Proof. by destruct s. Qed.

Lemma only_disk_and_report_log r s : only_disk_and_report s (add_log r s).
Proof. by destruct s. Qed.

Lemma only_disk_and_report_fs m s : only_disk_and_report s (with_fs m s).
Proof. by destruct s. Qed.

Ltac disk_and_report :=
  repeat first
    [ apply only_disk_and_report_refl
    | eapply only_disk_and_report_trans;
      [|first [ apply only_disk_and_report_output
              | apply only_disk_and_report_log
              | apply only_disk_and_report_fs ]] ].

Ltac disk_and_report_then IH :=
  eapply only_disk_and_report_trans; [|apply IH]; disk_and_report.

Lemma create_folders_assigns dry_run d folders s :
  only_disk_and_report s (create_folders dry_run d folders s).2.
Proof.
  revert s. induction folders as [|folder folders IH]; intros s; simpl.
  - disk_and_report.
  - destruct (Os.path_exists _ _); [apply IH|].
    destruct dry_run; [disk_and_report_then IH|].
    destruct (Os.makedirs _ _); [disk_and_report_then IH | disk_and_report].
Qed.

Lemma try_folders_assigns dry_run d filename items l s :
  only_disk_and_report s (try_folders dry_run d filename items l s).2.
Proof.
  revert s. induction items as [|[folder exts] items IH]; intros s; simpl.
  - disk_and_report.
  - destruct (any_endswith _ _); [|apply IH].
    destruct dry_run; [simpl; disk_and_report|].
    destruct (Shutil.move _ _ _); [simpl; disk_and_report|].
    disk_and_report_then IH.
Qed.

Lemma organize_loop_assigns dry_run d names l s :
  only_disk_and_report s (organize_loop dry_run d names l s).2.
Proof.
  revert l s. induction names as [|f names IH]; intros l s; simpl.
  - disk_and_report.
  - assert (only_disk_and_report s (organize_file dry_run d f l s).2) as H.
    { unfold organize_file. destruct (Os.isfile _ _); [|disk_and_report].
      destruct (is_ignored _ _); [disk_and_report|].
      pose proof (try_folders_assigns dry_run d f (file_extensions s) l s) as H.
      destruct (try_folders _ _ _ _ _ _) as [[moved l1] s1]. simpl in H.
      destruct moved; simpl; [done|].
      eapply only_disk_and_report_trans; [exact H | disk_and_report]. }
    destruct (organize_file _ _ _ _ _) as [l1 s1]. simpl in H.
    eapply only_disk_and_report_trans; [exact H | apply IH].
Qed.

Lemma summary_assigns counts s : only_disk_and_report s (summary counts s).
Proof.
  unfold summary. case_decide; [disk_and_report|].
  assert (∀ cs s0, only_disk_and_report s0
            (foldl (λ s fc, if decide (0 < fc.2)
                            then add_output (CategoryCount fc.1 fc.2) s else s)
               s0 cs)) as Hlines.
  { induction cs as [|fc cs IH]; intros s0; simpl; [disk_and_report|].
    case_decide; [disk_and_report_then IH | apply IH]. }
  eapply only_disk_and_report_trans; [|apply Hlines]. disk_and_report.
Qed.

Lemma undo_loop_assigns last_batch n s :
  only_disk_and_report s (undo_loop last_batch n s).2.
Proof.
  revert n s. induction last_batch as [|[src dest] rest IH]; intros n s; simpl.
  - disk_and_report.
  - destruct (Os.path_exists _ _); [|disk_and_report_then IH].
    destruct (Shutil.move _ _ _); disk_and_report_then IH.
Qed.

Lemma only_disk_and_report_settings s s' :
  only_disk_and_report s s' →
  same_settings s s'
  ∧ undo_stack s' = undo_stack s ∧ undo_btn s' = undo_btn s
  ∧ status_var s' = status_var s ∧ dialogs s' = dialogs s.
Proof. unfold only_disk_and_report. intros ->. by repeat split. Qed.

Lemma organize_files_settings dry_run s :
  same_settings s (organize_files dry_run s).2.
Proof.
  unfold organize_files. destruct (selected_directory s) as [d|].
  2: { by repeat split. }
  set (s0 := with_status_var Organizing (with_output_text [] s)).
  pose proof (create_folders_assigns dry_run d (Dict.keys (file_extensions s0)) s0)
    as H1.
  destruct (create_folders _ _ _ _) as [[e|] s1]; simpl in H1.
  { apply only_disk_and_report_settings in H1 as [H1 _]. exact H1. }
  destruct (Os.listdir _ _) as [names|e].
  2: { apply only_disk_and_report_settings in H1 as [H1 _]. exact H1. }
  match goal with |- context [organize_loop ?a ?b ?c ?d ?e] =>
    pose proof (organize_loop_assigns a b c d e) as H2;
    destruct (organize_loop a b c d e) as [l2 s2] end.
  simpl in H2.
  pose proof (summary_assigns (organized_counts l2) s2) as H3.
  pose proof (only_disk_and_report_trans _ _ _ H1
                (only_disk_and_report_trans _ _ _ H2 H3)) as H.
  apply only_disk_and_report_settings in H as [H _].
  simpl. destruct (current_batch l2); exact H.
Qed.

Lemma undo_changes_settings s : same_settings s (undo_changes s).2.
Proof.
  unfold undo_changes. destruct (pop (undo_stack s)) as [[b rest]|].
  2: { by repeat split. }
  pose proof (undo_loop_assigns b 0
                (add_output UndoingLast (with_undo_stack rest s))) as H.
  destruct (undo_loop _ _ _) as [n s1]. simpl in H.
  apply only_disk_and_report_settings in H as [H _].
  simpl. destruct rest; exact H.
Qed.

(** ** Organizing again *)

Lemma move_file_src_gone (src dst : list string)
    (m m' : gmap (list string) node) x :
  m !! src = Some (File x) → Shutil.move src dst m = Ok m' →
  src ≠ dst → src ≠ hd "" src :: dst → m' !! src = None.
Proof.
  intros Hsrc Hmv Hne1 Hne2. unfold Shutil.move in Hmv.
  destruct (Os.isdir dst m).
  - rewrite decide_False in Hmv by done.
    destruct (Os.path_exists _ _); [done|].
    rewrite (rename_file_ok _ _ _ _ x Hsrc Hne2 Hmv).
    by apply relocate_lookup_src.
  - rewrite (rename_file_ok _ _ _ _ x Hsrc Hne1 Hmv).
    by apply relocate_lookup_src.
Qed.

Lemma organize_file_settles d filename l s l1 s1 :
  organize_file false d filename l s = (l1, s1) →
  (∀ e, ErrorMoving filename e ∉ output_text s1) →
  Os.isfile (filename :: d) (fs s1) = true →
  is_ignored filename (ignore_list s) = true
  ∨ first_folder filename (file_extensions s) = None.
Proof.
  unfold organize_file. destruct (Os.isfile (filename :: d) (fs s)) eqn:Hfile.
  2: { intros [= <- <-] _ ?. congruence. }
  destruct (is_ignored _ _); [by left|].
  destruct (first_folder filename (file_extensions s)) as [c|] eqn:Hff; [|by right].
  destruct (try_folders _ _ _ _ _ _) as [[moved l2] s2] eqn:Htry.
  intros Hres Hno Hstill. exfalso.
  assert (∀ e, ErrorMoving filename e ∉ output_text s2) as Hno2.
  { intros e Hin. apply (Hno e). destruct moved; simplify_eq; [done|].
    simpl. set_solver. }
  pose proof (try_folders_real_counts _ _ _ _ _ _ _ _ Htry Hno2) as H.
  rewrite Hff in H. destruct H as [-> _]. simplify_eq.
  apply try_folders_real in Htry as [(? & _)|(c' & _ & _ & _ & _ & Hmv)]; [done|].
  apply isfile_Some in Hfile as [x Hx].
  unfold Os.isfile in Hstill.
  rewrite (move_file_src_gone _ _ _ _ x Hx Hmv) in Hstill; [done|path_ne..].
Qed.

Lemma organize_loop_settles d names l s l' s' :
  NoDup names →
  organize_loop false d names l s = (l', s') →
  (∀ f e, ErrorMoving f e ∉ output_text s') →
  ∀ f, f ∈ names → Os.isfile (f :: d) (fs s') = true →
       is_ignored f (ignore_list s) = true
       ∨ first_folder f (file_extensions s) = None.
Proof.
  revert l s. induction names as [|g names IH]; intros l s Hnd; simpl.
  { intros _ _ f Hf. by apply elem_of_nil in Hf. }
  apply NoDup_cons in Hnd as [Hg Hnd].
  destruct (organize_file false d g l s) as [l1 s1] eqn:Hstep.
  pose proof (organize_file_globals false d g l s) as Hgl.
  rewrite Hstep in Hgl. destruct Hgl as (_ & Hfe & _ & Hign & _). simpl in *.
  intros Hloop Hno f Hf Hfile.
  apply elem_of_cons in Hf as [->|Hf].
  - apply (organize_file_settles _ _ _ _ _ _ Hstep).
    + intros e Hin. apply (Hno g e). change s' with (l', s').2.
      rewrite <- Hloop. by apply organize_loop_output.
    + unfold Os.isfile in *.
      rewrite <- (organize_loop_frame _ _ _ _ _ _ (g :: d) Hloop); [done|].
      intros f c Hf _. split_and!; [|path_ne..]. intros [= ->]. done.
  - rewrite <- Hfe, <- Hign. by apply (IH _ _ Hnd Hloop Hno).
Qed.

Lemma organize_loop_nothing d names l s :
  (∀ f, f ∈ names →
        Os.isfile (f :: d) (fs s) = false
        ∨ is_ignored f (ignore_list s) = true
        ∨ first_folder f (file_extensions s) = None) →
  ∃ s', organize_loop false d names l s = (l, s') ∧ fs s' = fs s.
Proof.
  revert s. induction names as [|g names IH]; intros s Hall; simpl.
  { by exists s. }
  assert (∃ s1, organize_file false d g l s = (l, s1) ∧ fs s1 = fs s
                ∧ ignore_list s1 = ignore_list s
                ∧ file_extensions s1 = file_extensions s)
    as (s1 & -> & Hfs & Hign & Hfe).
  { unfold organize_file. destruct (Hall g) as [->|[Hi|Hn]]; [set_solver| | |].
    - by exists s.
    - destruct (Os.isfile _ _); [|by exists s]. rewrite Hi. by exists s.
    - destruct (Os.isfile _ _); [|by exists s].
      destruct (is_ignored _ _); [by exists s|].
      rewrite (try_folders_unmatched _ _ _ _ _ _ Hn). by eexists. }
  destruct (IH s1) as (s' & -> & Hfs').
  { intros f Hf. rewrite Hfs, Hign, Hfe. apply Hall. set_solver. }
  exists s'. split; [done | congruence].
Qed.

(** X7. Let the category names be single path components.  After a real
    organize of an existing directory that reported no failed move, a
    second real organize finds nothing to move: its batch is empty, all
    its counts are zero, the undo stack is not touched and every file is
    where the first run left it. *)
Theorem second_organize_moves_nothing (s s1 : state) (d : list string)
    (l1 : locals) :
  plain_names (file_extensions s) = true →
  selected_directory s = Some d →
  fs s !! d = Some Dir →
  organize_files false s = (Completed l1, s1) →
  (∀ f e, ErrorMoving f e ∉ output_text s1) →
  ∃ l2 s2,
    organize_files false s1 = (Completed l2, s2)
    ∧ current_batch l2 = []
    ∧ sum_list (organized_counts l2).*2 = 0
    ∧ undo_stack s2 = undo_stack s1
    ∧ ∀ p x, fs s2 !! p = Some (File x) ↔ fs s1 !! p = Some (File x).
Proof.
  intros _ Hsel Hd Hrun Hno.
  destruct (organize_files_real_parts s d Hsel Hd)
    as (scf & l & s' & Hlook & Hfe & Hign & Hloop & Hrun' & Hfs1).
  rewrite Hrun in Hrun', Hfs1. simpl in Hfs1. injection Hrun' as -> Hs1.
  pose proof (organize_files_settings false s) as Hset.
  rewrite Hrun in Hset. simpl in Hset.
  destruct Hset as (_ & Hfe1 & _ & Hign1 & Hsel1 & _).
  assert (∀ f e, ErrorMoving f e ∉ output_text s') as Hno'.
  { intros f e Hin. apply (Hno f e). rewrite Hs1.
    destruct (current_batch l); simpl; by apply summary_output. }
  assert (fs s1 !! d = Some Dir) as Hd1.
  { rewrite Hfs1, (organize_loop_frame _ _ _ _ _ _ d Hloop).
    - by rewrite Hlook, Hd.
    - intros f c _ _. split_and!; path_ne. }
  rewrite Hsel in Hsel1.
  destruct (organize_files_real_parts s1 d Hsel1 Hd1)
    as (scf2 & l2 & s2' & Hlook2 & Hfe2 & Hign2 & Hloop2 & Hrun2 & Hfs2).
  destruct (organize_loop_nothing d (Os.entries d (fs scf2))
              {| organized_counts :=
                   (λ folder, (folder, 0)) <$> Dict.keys (file_extensions s1);
                 current_batch := [] |} scf2) as (s2'' & Hnothing & Hsame).
  { intros n Hn. destruct (Os.isfile (n :: d) (fs scf2)) eqn:Hfile; [|by left].
    right. apply isfile_Some in Hfile as [x Hx].
    assert (fs s' !! (n :: d) = Some (File x)) as Hx'.
    { rewrite <- Hfs1. rewrite Hlook2 in Hx. destruct (fs s1 !! (n :: d)); [done|].
      by case_bool_decide. }
    assert (n ∈ Os.entries d (fs scf)) as Hin.
    { apply entries_elem. destruct (fs scf !! (n :: d)) eqn:Hscf; [done|].
      rewrite (organize_loop_frame _ _ _ _ _ _ (n :: d) Hloop) in Hx'; [congruence|].
      intros f c Hf _. split_and!; [|path_ne..]. intros [= ->].
      apply entries_elem in Hf as [? ?]. congruence. }
    rewrite Hfe2, Hign2, Hfe1, Hign1, <- Hfe, <- Hign.
    apply (organize_loop_settles _ _ _ _ _ _ (entries_NoDup _ _) Hloop Hno' n Hin).
    apply isfile_Some. by exists x. }
  rewrite Hnothing in Hloop2. injection Hloop2 as <- <-.
  eexists _, _. split; [exact Hrun2|]. simpl. split_and!.
  - done.
  - apply zero_counts_sum.
  - pose proof (organize_files_undo_stack false s1) as Hst.
    rewrite Hrun2 in Hst. exact Hst.
  - intros p x. rewrite Hrun2 in Hfs2. simpl in Hfs2. rewrite Hfs2, Hsame, Hlook2.
    destruct (fs s1 !! p); [done|]. case_bool_decide; split; done.
Qed.

Lemma second_organize_moves_nothing_witness :
  plain_names (file_extensions scenario) = true
  ∧ selected_directory scenario = Some ["dir"]
  ∧ fs scenario !! ["dir"] = Some Dir
  ∧ (∀ f e, ErrorMoving f e ∉ output_text (organize_files false scenario).2)
  ∧ ∃ l2, (organize_files false (organize_files false scenario).2).1
          = Completed l2
          ∧ current_batch l2 = [].
Proof.
  assert (fs scenario !! ["dir"] = Some Dir) as Hd by (vm_compute; reflexivity).
  assert (organize_files false scenario
          = (Completed scenario_locals, (organize_files false scenario).2))
    as Hrun by (vm_compute; reflexivity).
  assert (∀ f e, ErrorMoving f e ∉ output_text (organize_files false scenario).2)
    as Hno.
  { intros f e Hin. vm_compute in Hin.
    repeat (apply elem_of_cons in Hin as [Hin|Hin]; [discriminate|]).
    by apply elem_of_nil in Hin. }
  split_and!; [reflexivity | reflexivity | exact Hd | exact Hno |].
  destruct (second_organize_moves_nothing scenario _ ["dir"] scenario_locals
              eq_refl eq_refl Hd Hrun Hno) as (l2 & s2 & Hrun2 & Hb & _).
  exists l2. rewrite Hrun2. split; [reflexivity | exact Hb].
Defined.

(** ** Case *)

Lemma lower_ascii_idemp c :
  Str.lower_ascii (Str.lower_ascii c) = Str.lower_ascii c.
Proof. by destruct c as [[] [] [] [] [] [] [] []]. Qed.

Lemma lower_idemp (s : string) : Str.lower (Str.lower s) = Str.lower s.
Proof.
  induction s as [|c s IH]; simpl; [done|]. by rewrite lower_ascii_idemp, IH.
Qed.

Lemma lower_ascii_dot c : Str.lower_ascii c = "."%char ↔ c = "."%char.
Proof. destruct c as [[] [] [] [] [] [] [] []]; by vm_compute. Qed.

Lemma startswith_dot_lower (s : string) :
  Str.startswith (Str.lower s) "." = Str.startswith s ".".
Proof.
  destruct s as [|c s]; simpl; [done|]. f_equal; [|by destruct s].
  apply bool_decide_ext. split; intros H.
  - symmetry. apply lower_ascii_dot. done.
  - symmetry. apply lower_ascii_dot. done.
Qed.

(** X8. How a file is classified depends on its name only up to the case
    of its letters: two names that are equal in lower case get the same
    answer, whatever the rules and the ignore list. *)
Theorem classify_ignores_case (f g : string) (rules : dict (list string))
    (ignore_list : list string) :
  Str.lower f = Str.lower g →
  classify f rules ignore_list = classify g rules ignore_list.
Proof.
  intros Heq. unfold classify, is_ignored.
  rewrite <- (startswith_dot_lower f), <- (startswith_dot_lower g), Heq.
  destruct (_ || _); [done|].
  assert (first_folder f rules = first_folder g rules) as ->; [|done].
  induction rules as [|[c exts] rules IH]; simpl; [done|].
  unfold any_endswith. by rewrite Heq, IH.
Qed.

Lemma classify_ignores_case_witness :
  classify "HOLIDAY.Jpg" (categories default_config) []
  = classify "holiday.jpg" (categories default_config) [].
Proof. apply classify_ignores_case. reflexivity. Defined.

(** ** Loading and saving again *)

(** X9. The document that a load followed by a save writes is stable: a
    later start reads the same categories and the same ignore list from
    it, and a save then writes it back unchanged. *)
Theorem load_save_twice (disk disk' : gmap (list string) node)
    (doc : config_doc) :
  ∃ doc1,
    config_json (save_config (startup disk (Some doc))) = Some doc1
    ∧ file_extensions (startup disk' (Some doc1))
      = file_extensions (startup disk (Some doc))
    ∧ ignore_list (startup disk' (Some doc1))
      = ignore_list (startup disk (Some doc))
    ∧ config_json (save_config (startup disk' (Some doc1))) = Some doc1.
Proof.
  eexists. split; [reflexivity|]. simpl.
  assert (Str.lower <$> (Str.lower <$> ignore doc) = Str.lower <$> ignore doc)
    as Hlow.
  { rewrite <- list_fmap_compose. apply list_fmap_ext. intros ? ? _. simpl.
    apply lower_idemp. }
  split_and!; [done | exact Hlow | by rewrite Hlow].
Qed.

(** ** Dictionaries *)

Lemma dict_mem_get {V} (k : string) (d : dict V) :
  Dict.mem k d = true ↔ is_Some (Dict.get k d).
Proof.
  unfold Dict.mem, Dict.keys. rewrite bool_decide_eq_true.
  induction d as [|[k' v] d IH]; simpl.
  - split; [by intros ?%elem_of_nil | by intros [? ?]].
  - rewrite elem_of_cons. simpl. case_decide; [naive_solver|].
    rewrite <- IH. naive_solver.
Qed.

Lemma dict_update_keys {V} (k : string) (v : V) (d : dict V) :
  Dict.keys (Dict.update k v d) = Dict.keys d.
Proof.
  unfold Dict.keys. induction d as [|[k' v'] d IH]; simpl; [done|].
  case_decide; simpl; [done|]. f_equal. exact IH.
Qed.

Lemma dict_get_update {V} (k k' : string) (v : V) (d : dict V) :
  is_Some (Dict.get k d) →
  Dict.get k' (Dict.update k v d)
  = if decide (k = k') then Some v else Dict.get k' d.
Proof.
  induction d as [|[k0 v0] d IH]; simpl; [by intros [? ?]|].
  intros Hk. destruct (decide (k0 = k)) as [->|Hne]; simpl.
  - by case_decide.
  - rewrite IH by done. repeat case_decide; congruence.
Qed.

Lemma dict_update_same {V} (k : string) (v : V) (d : dict V) :
  Dict.get k d = Some v → Dict.update k v d = d.
Proof.
  induction d as [|[k0 v0] d IH]; simpl; [done|].
  case_decide; [by intros [= ->] | intros Hget; by rewrite IH].
Qed.

Lemma dict_del_cons {V} (k k0 : string) (v0 : V) (d : dict V) :
  Dict.del k ((k0, v0) :: d)
  = if decide (k0 = k) then Dict.del k d else (k0, v0) :: Dict.del k d.
Proof.
  unfold Dict.del, dict. case_decide.
  - by rewrite filter_cons_False by (simpl; tauto).
  - by rewrite filter_cons_True.
Qed.

Lemma dict_get_del {V} (k k' : string) (d : dict V) :
  Dict.get k' (Dict.del k d) = if decide (k = k') then None else Dict.get k' d.
Proof.
  induction d as [|[k0 v0] d IH]; [by case_decide|].
  rewrite dict_del_cons. simpl. repeat case_decide; simpl;
    rewrite ?IH; repeat case_decide; congruence.
Qed.

Lemma dict_del_keys {V} (k : string) (d : dict V) (i : nat) :
  NoDup (Dict.keys d) → Dict.keys d !! i = Some k →
  Dict.keys (Dict.del k d) = delete i (Dict.keys d).
Proof.
  unfold Dict.keys. revert i.
  induction d as [|[k0 v0] d IH]; intros i Hnd Hi; [done|].
  rewrite fmap_cons in Hnd, Hi. apply NoDup_cons in Hnd as [Hk0 Hnd].
  rewrite dict_del_cons. destruct i as [|i]; simpl in *.
  - injection Hi as ->. rewrite decide_True by done.
    clear IH. induction d as [|[k1 v1] d IH]; [done|].
    rewrite fmap_cons in Hk0, Hnd. apply NoDup_cons in Hnd as [_ Hnd].
    rewrite dict_del_cons, decide_False by set_solver.
    rewrite !fmap_cons. f_equal. apply IH; [set_solver | done].
  - rewrite decide_False.
    + rewrite fmap_cons. simpl. f_equal. by apply IH.
    + intros ->. apply Hk0. by eapply list_elem_of_lookup_2.
Qed.

Lemma dict_del_NoDup {V} (k : string) (d : dict V) :
  NoDup (Dict.keys d) → NoDup (Dict.keys (Dict.del k d)).
Proof.
  unfold Dict.keys. intros Hnd.
  induction d as [|[k0 v0] d IH]; [done|].
  rewrite fmap_cons in Hnd. apply NoDup_cons in Hnd as [Hk0 Hnd].
  rewrite dict_del_cons. case_decide; [by apply IH|].
  rewrite fmap_cons. constructor; [|by apply IH].
  intros ([k1 v1] & Heq & Hin)%list_elem_of_fmap. simpl in Heq. subst k1.
  unfold Dict.del, dict in Hin.
  apply list_elem_of_filter in Hin as [_ Hin]. apply Hk0.
  apply list_elem_of_fmap. by exists (k0, v1).
Qed.

(** ** Rules and classification *)

Lemma first_folder_app filename (a b : dict (list string)) :
  first_folder filename (a ++ b)
  = match first_folder filename a with
    | Some folder => Some folder
    | None => first_folder filename b
    end.
Proof.
  induction a as [|[c exts] a IH]; simpl; [done|].
  by destruct (any_endswith filename exts).
Qed.

Lemma any_endswith_app filename (a b : list string) :
  any_endswith filename (a ++ b)
  = any_endswith filename a || any_endswith filename b.
Proof. unfold any_endswith. apply existsb_app. Qed.

Lemma first_folder_update filename cat v exts (rules : dict (list string)) :
  Dict.get cat rules = Some exts →
  any_endswith filename v = any_endswith filename exts →
  first_folder filename (Dict.update cat v rules) = first_folder filename rules.
Proof.
  intros Hget Hsame. induction rules as [|[c e] rules IH]; simpl in *; [done|].
  destruct (decide (c = cat)) as [->|Hne]; simpl.
  - injection Hget as ->. by rewrite Hsame.
  - by rewrite IH.
Qed.

Lemma first_folder_update_new filename cat v exts (rules : dict (list string)) :
  Dict.get cat rules = Some exts →
  first_folder filename rules = None →
  any_endswith filename v = true →
  first_folder filename (Dict.update cat v rules) = Some cat.
Proof.
  intros Hget Hnone Hv. induction rules as [|[c e] rules IH]; simpl in *; [done|].
  destruct (any_endswith filename e) eqn:He; [done|].
  destruct (decide (c = cat)) as [->|Hne]; simpl.
  - by rewrite Hv.
  - rewrite He. by apply IH.
Qed.

Lemma first_folder_del filename cat (rules : dict (list string)) :
  match first_folder filename rules with
  | Some folder =>
      folder ≠ cat → first_folder filename (Dict.del cat rules) = Some folder
  | None => first_folder filename (Dict.del cat rules) = None
  end.
Proof.
  induction rules as [|[c e] rules IH]; simpl; [done|].
  rewrite dict_del_cons. destruct (any_endswith filename e) eqn:He.
  - intros Hne. rewrite decide_False by done. simpl. by rewrite He.
  - case_decide; [exact IH|]. simpl. rewrite He. exact IH.
Qed.

(** ** The commands of the configuration window *)

(** X10. Adding a category under a name that is new and not empty puts
    it after all the others, without extensions, and writes the
    configuration to [config.json]; no file is classified differently
    afterwards; the disk, the selection and the undo stack are as
    before. *)
Theorem add_category_fresh (new_cat : string) (s : state) :
  new_cat ≠ "" →
  new_cat ∉ Dict.keys (file_extensions s) →
  file_extensions (add_category (Some new_cat) s)
  = file_extensions s ++ [(new_cat, [])]
  ∧ config_json (add_category (Some new_cat) s)
    = Some {| categories := file_extensions s ++ [(new_cat, [])];
              ignore := ignore_list s |}
  ∧ (∀ filename,
       classify filename (file_extensions (add_category (Some new_cat) s))
         (ignore_list (add_category (Some new_cat) s))
       = classify filename (file_extensions s) (ignore_list s))
  ∧ fs (add_category (Some new_cat) s) = fs s
  ∧ selected_directory (add_category (Some new_cat) s) = selected_directory s
  ∧ undo_stack (add_category (Some new_cat) s) = undo_stack s.
Proof.
  intros Hne Hnew. unfold add_category, Dict.set, Dict.mem.
  rewrite (bool_decide_eq_false_2 _ Hne), (bool_decide_eq_false_2 _ Hnew).
  simpl. split_and!; try done.
  intros filename. unfold classify. rewrite first_folder_app. simpl.
  by destruct (first_folder filename (file_extensions s)).
Qed.

Lemma add_category_fresh_witness :
  file_extensions (add_category (Some "Models") scenario)
  = file_extensions scenario ++ [("Models", [])].
Proof.
  apply add_category_fresh; [discriminate|].
  vm_compute. intros Hin.
  repeat (apply elem_of_cons in Hin as [Hin|Hin]; [discriminate|]).
  by apply elem_of_nil in Hin.
Defined.

(** X11. Adding to a category an extension that it does not have, and
    that is not empty, puts it after the category's other extensions,
    keeps the categories and their order, and writes the configuration to
    [config.json].  Afterwards a file whose name in lower case does not
    end with the new extension is classified as before, and a file whose
    name does, and that was unmatched, is matched to that category. *)
Theorem add_extension_effect (cat new_ext : string) (exts : list string)
    (s : state) :
  Dict.get cat (file_extensions s) = Some exts →
  new_ext ≠ "" →
  new_ext ∉ exts →
  Dict.get cat (file_extensions (add_extension (Some cat) (Some new_ext) s))
  = Some (exts ++ [new_ext])
  ∧ Dict.keys (file_extensions (add_extension (Some cat) (Some new_ext) s))
    = Dict.keys (file_extensions s)
  ∧ config_json (add_extension (Some cat) (Some new_ext) s)
    = Some {| categories :=
                file_extensions (add_extension (Some cat) (Some new_ext) s);
              ignore := ignore_list s |}
  ∧ (∀ filename,
       Str.endswith (Str.lower filename) new_ext = false →
       classify filename
         (file_extensions (add_extension (Some cat) (Some new_ext) s))
         (ignore_list s)
       = classify filename (file_extensions s) (ignore_list s))
  ∧ (∀ filename,
       Str.endswith (Str.lower filename) new_ext = true →
       classify filename (file_extensions s) (ignore_list s) = Unmatched →
       classify filename
         (file_extensions (add_extension (Some cat) (Some new_ext) s))
         (ignore_list s)
       = Matched cat).
Proof.
  intros Hget Hne Hnew. unfold add_extension. rewrite Hget.
  rewrite (bool_decide_eq_false_2 _ Hne), (bool_decide_eq_false_2 _ Hnew).
  simpl. split_and!.
  - rewrite dict_get_update by (by rewrite Hget). by rewrite decide_True.
  - apply dict_update_keys.
  - done.
  - intros filename Hend. unfold classify.
    rewrite (first_folder_update _ _ _ exts); [done..|].
    rewrite any_endswith_app. simpl. rewrite Hend. by rewrite !orb_false_r.
  - intros filename Hend. unfold classify.
    destruct (is_ignored _ _); [done|].
    destruct (first_folder filename (file_extensions s)) eqn:Hff; [done|].
    intros _. rewrite (first_folder_update_new _ _ _ exts); [done..|].
    rewrite any_endswith_app. simpl. rewrite Hend. by rewrite orb_true_r.
Qed.

Lemma add_extension_effect_witness :
  classify "IMG_0001.HEIC" (file_extensions scenario) (ignore_list scenario)
  = Unmatched
  ∧ classify "IMG_0001.HEIC"
      (file_extensions (add_extension (Some "Images") (Some ".heic") scenario))
      (ignore_list scenario)
    = Matched "Images".
Proof.
  assert (classify "IMG_0001.HEIC" (file_extensions scenario)
            (ignore_list scenario) = Unmatched) as H by (vm_compute; reflexivity).
  split; [exact H|].
  assert (".heic" ∉ [".jpg"; ".jpeg"; ".png"; ".gif"; ".bmp"; ".tiff"; ".svg";
                     ".webp"]) as Hnew.
  { intros Hin.
    repeat (apply elem_of_cons in Hin as [Hin|Hin]; [discriminate|]).
    by apply elem_of_nil in Hin. }
  apply (proj2 (proj2 (proj2 (proj2
           (add_extension_effect "Images" ".heic" _ scenario eq_refl
              ltac:(discriminate) Hnew)))));
    [reflexivity | exact H].
Defined.



(** X13. Removing the category selected in the list box, once confirmed,
    takes it and all its extensions out of the rules and its line out of
    the list box, keeps the other categories with their extensions, and
    writes the configuration to [config.json].  A file that was matched
    to another category is still matched to it, and a file that was
    unmatched still is.  Without the confirmation nothing changes. *)
Theorem remove_category_effect (i : nat) (cat : string) (s : state) :
  categories_listbox s !! i = Some cat →
  cat ∈ Dict.keys (file_extensions s) →
  remove_category (Some i) false s = (None, None, s)
  ∧ ∃ s',
      remove_category (Some i) true s = (None, Some (RemovedCategory cat), s')
      ∧ Dict.get cat (file_extensions s') = None
      ∧ (∀ c, c ≠ cat →
              Dict.get c (file_extensions s') = Dict.get c (file_extensions s))
      ∧ categories_listbox s' = delete i (categories_listbox s)
      ∧ config_json s'
        = Some {| categories := file_extensions s'; ignore := ignore_list s |}
      ∧ ignore_list s' = ignore_list s
      ∧ (∀ filename folder,
           folder ≠ cat →
           classify filename (file_extensions s) (ignore_list s) = Matched folder →
           classify filename (file_extensions s') (ignore_list s)
           = Matched folder)
      ∧ (∀ filename,
           classify filename (file_extensions s) (ignore_list s) = Unmatched →
           classify filename (file_extensions s') (ignore_list s) = Unmatched)
      ∧ fs s' = fs s ∧ undo_stack s' = undo_stack s.
Proof.
  intros Hsel Hkey. unfold remove_category, selected_category. rewrite Hsel.
  split; [done|]. unfold Dict.mem. rewrite (bool_decide_eq_true_2 _ Hkey).
  eexists. split; [reflexivity|]. simpl. split_and!; try done.
  - rewrite dict_get_del. by rewrite decide_True.
  - intros c Hc. rewrite dict_get_del. by rewrite decide_False.
  - intros filename folder Hne. unfold classify.
    destruct (is_ignored _ _); [done|].
    pose proof (first_folder_del filename cat (file_extensions s)) as Hdel.
    destruct (first_folder filename (file_extensions s)); [|done].
    intros [= ->]. by rewrite Hdel.
  - intros filename. unfold classify.
    destruct (is_ignored _ _); [done|].
    pose proof (first_folder_del filename cat (file_extensions s)) as Hdel.
    destruct (first_folder filename (file_extensions s)); [done|].
    by rewrite Hdel.
Qed.

Lemma remove_category_effect_witness :
  ∃ s', remove_category (Some 4) true (open_config_window scenario)
        = (None, Some (RemovedCategory "Archives"), s')
        ∧ Dict.get "Archives" (file_extensions s') = None.
Proof.
  destruct (remove_category_effect 4 "Archives" (open_config_window scenario)
              eq_refl) as (_ & s' & Hrm & Hget & _).
  { vm_compute. set_solver. }
  exists s'. split; [exact Hrm | exact Hget].
Defined.



Lemma ticked_all (exts : list string) :
  ticked ((λ ext, (ext, true)) <$> exts) = exts.
Proof.
  unfold ticked. induction exts as [|e exts IH]; [done|].
  rewrite fmap_cons, filter_cons_True by done. rewrite fmap_cons. simpl.
  by rewrite IH.
Qed.

Lemma ticked_sublist (exts : list string) (bs : list bool) :
  ticked (zip exts bs) `sublist_of` exts.
Proof.
  unfold ticked. revert bs. induction exts as [|e exts IH]; intros bs; [done|].
  destruct bs as [|b bs]; simpl; [apply sublist_nil_l|].
  destruct b.
  - rewrite filter_cons_True by done. rewrite fmap_cons. apply sublist_skip, IH.
  - rewrite filter_cons_False by done. apply sublist_cons, IH.
Qed.

(** X15. For the category selected in the list box, the check boxes start
    all ticked, and saving them as they start changes no rule.  Saving
    them with some unticked leaves to the category the extensions that are
    ticked, in their order, keeps the other categories and the order of
    all of them, and writes the configuration to [config.json]. *)
Theorem save_extensions_effect (i : nat) (cat : string) (exts : list string)
    (s : state) :
  categories_listbox s !! i = Some cat →
  Dict.get cat (file_extensions s) = Some exts →
  update_extensions (Some i) s = (None, (λ ext, (ext, true)) <$> exts)
  ∧ file_extensions
      (save_extensions (Some i) ((λ ext, (ext, true)) <$> exts) s).2
    = file_extensions s
  ∧ ∀ bs,
      Dict.get cat (file_extensions (save_extensions (Some i) (zip exts bs) s).2)
      = Some (ticked (zip exts bs))
      ∧ ticked (zip exts bs) `sublist_of` exts
      ∧ Dict.keys (file_extensions (save_extensions (Some i) (zip exts bs) s).2)
        = Dict.keys (file_extensions s)
      ∧ (∀ c, c ≠ cat →
              Dict.get c
                (file_extensions (save_extensions (Some i) (zip exts bs) s).2)
              = Dict.get c (file_extensions s))
      ∧ config_json (save_extensions (Some i) (zip exts bs) s).2
        = Some {| categories :=
                    file_extensions (save_extensions (Some i) (zip exts bs) s).2;
                  ignore := ignore_list s |}.
Proof.
  intros Hsel Hget.
  assert (Dict.mem cat (file_extensions s) = true) as Hmem.
  { apply dict_mem_get. by rewrite Hget. }
  unfold update_extensions, save_extensions, selected_category, Dict.set.
  rewrite Hsel, Hget, Hmem. simpl. split_and!.
  - done.
  - rewrite ticked_all. by apply dict_update_same.
  - intros bs. split_and!.
    + rewrite dict_get_update by (by rewrite Hget). by rewrite decide_True.
    + apply ticked_sublist.
    + apply dict_update_keys.
    + intros c Hc. rewrite dict_get_update by (by rewrite Hget).
      by rewrite decide_False.
    + done.
Qed.

Lemma save_extensions_effect_witness :
  file_extensions
    (save_extensions (Some 8) [(".torrent", true)]
       (open_config_window scenario)).2
  = file_extensions scenario
  ∧ Dict.get "Torrents"
      (file_extensions
         (save_extensions (Some 8) [(".torrent", false)]
            (open_config_window scenario)).2)
    = Some [].
Proof.
  destruct (save_extensions_effect 8 "Torrents" [".torrent"]
              (open_config_window scenario) eq_refl eq_refl)
    as (_ & Hsame & Hticked).
  split; [exact Hsame|].
  exact (proj1 (Hticked [false])).
Defined.

(** ** Rules whose order does not matter *)

Lemma endswith_refl (s : string) : Str.endswith s s = true.
Proof. destruct s; cbn [Str.endswith]; by rewrite bool_decide_eq_true_2. Qed.

Lemma endswith_comparable (s a b : string) :
  Str.endswith s a = true → Str.endswith s b = true →
  Str.endswith a b = true ∨ Str.endswith b a = true.
Proof.
  induction s as [|c s IH]; cbn [Str.endswith];
    rewrite ?orb_false_r, ?orb_true_iff, ?bool_decide_eq_true.
  - intros <- <-. by left.
  - intros [<-|Ha] [<-|Hb].
    + left. apply endswith_refl.
    + left. cbn [Str.endswith]. rewrite Hb. apply orb_true_r.
    + right. cbn [Str.endswith]. rewrite Ha. apply orb_true_r.
    + by apply IH.
Qed.

Lemma disjoint_exts_no_common filename (a b : list string) :
  disjoint_exts a b = true → any_endswith filename a = true →
  any_endswith filename b = false.
Proof.
  unfold disjoint_exts, any_endswith. intros Hdis Ha.
  apply existsb_exists in Ha as (x & Hx & Hfx).
  apply not_true_is_false. intros (y & Hy & Hfy)%existsb_exists.
  rewrite forallb_forall in Hdis. specialize (Hdis x Hx).
  rewrite forallb_forall in Hdis. specialize (Hdis y Hy).
  apply andb_true_iff in Hdis as [H1 H2].
  apply negb_true_iff in H1, H2.
  destruct (endswith_comparable _ _ _ Hfx Hfy); congruence.
Qed.

Lemma disjoint_exts_sym (a b : list string) :
  disjoint_exts a b = true → disjoint_exts b a = true.
Proof.
  unfold disjoint_exts. rewrite !forallb_forall. intros H y Hy.
  apply forallb_forall. intros x Hx. specialize (H x Hx).
  rewrite forallb_forall in H. specialize (H y Hy).
  by rewrite andb_comm.
Qed.

Lemma overlap_free_first filename folder exts (rules : dict (list string)) :
  overlap_free rules = true →
  (folder, exts) ∈ rules →
  any_endswith filename exts = true →
  first_folder filename rules = Some folder.
Proof.
  induction rules as [|[c e] rules IH]; simpl; [by intros _ ?%elem_of_nil|].
  intros [Hhead Hrest]%andb_true_iff Hin Hany.
  apply elem_of_cons in Hin as [[= <- <-]|Hin]; [by rewrite Hany|].
  rewrite forallb_forall in Hhead.
  assert (any_endswith filename e = false) as ->; [|by apply IH].
  apply list_elem_of_In in Hin. specialize (Hhead _ Hin). simpl in Hhead.
  apply disjoint_exts_sym in Hhead.
  by apply (disjoint_exts_no_common filename exts e).
Qed.

Lemma first_folder_entry filename folder (rules : dict (list string)) :
  first_folder filename rules = Some folder →
  ∃ exts, (folder, exts) ∈ rules ∧ any_endswith filename exts = true.
Proof.
  induction rules as [|[c e] rules IH]; simpl; [done|].
  destruct (any_endswith filename e) eqn:He.
  - intros [= <-]. exists e. split; [set_solver | done].
  - intros (exts & Hin & Hany)%IH. exists exts. split; [set_solver | done].
Qed.

Lemma first_folder_None_in filename (rules : dict (list string)) :
  first_folder filename rules = None ↔
  ∀ folder exts, (folder, exts) ∈ rules → any_endswith filename exts = false.
Proof.
  induction rules as [|[c e] rules IH]; simpl.
  - split; [by intros _ ? ? ?%elem_of_nil | done].
  - destruct (any_endswith filename e) eqn:He.
    + split; [done|]. intros H. rewrite (H c e) in He; [done | set_solver].
    + rewrite IH. split.
      * intros H folder exts [[= -> ->]|Hin]%elem_of_cons; [done | by eapply H].
      * intros H folder exts Hin. apply (H folder exts). apply elem_of_cons; by right.
Qed.

(** X16. When no extension of a category is a suffix of an extension of
    another category, a file goes to whichever category has an extension
    that matches it, and the order of the categories does not matter:
    the rules put in any other order classify every file alike.  The
    default rules are such. *)
Theorem order_is_irrelevant (rules rules' : dict (list string))
    (ignore_list : list string) (filename : string) :
  overlap_free rules = true →
  rules' ≡ₚ rules →
  classify filename rules' ignore_list = classify filename rules ignore_list.
Proof.
  intros Hfree Hperm. unfold classify. destruct (is_ignored _ _); [done|].
  assert (first_folder filename rules' = first_folder filename rules) as ->;
    [|done].
  destruct (first_folder filename rules') as [c'|] eqn:Hff'.
  - apply first_folder_entry in Hff' as (exts & Hin & Hany).
    rewrite Hperm in Hin. symmetry. by eapply overlap_free_first.
  - symmetry. apply first_folder_None_in. intros folder exts Hin.
    rewrite first_folder_None_in in Hff'. eapply Hff'. by rewrite Hperm.
Qed.

Lemma order_is_irrelevant_witness :
  overlap_free (categories default_config) = true
  ∧ ∀ filename,
      classify filename (reverse (categories default_config)) []
      = classify filename (categories default_config) [].
Proof.
  assert (overlap_free (categories default_config) = true) as H
    by (vm_compute; reflexivity).
  split; [exact H|]. intros filename.
  apply (order_is_irrelevant _ _ _ _ H). apply reverse_Permutation.
Defined.

(** ** Invariants of the running program *)

Lemma run_invariant (P : state → Prop) (cs : list command) (s : state) :
  (∀ c s, P s → P (perform c s)) → P s → P (run cs s).
Proof.
  intros Hstep. unfold run. revert s.
  induction cs as [|c cs IH]; intros s Hs; simpl; [done|].
  apply IH. by apply Hstep.
Qed.

Lemma pop_Some {A} (l : list A) x rest :
  pop l = Some (x, rest) → l = rest ++ [x].
Proof.
  destruct l as [|y l _] using rev_ind; [done|].
  rewrite pop_snoc. by intros [= <- <-].
Qed.

Lemma add_category_assigns new_cat s :
  add_category new_cat s = s
  ∨ ∃ name,
      new_cat = Some name ∧ (name ∉ Dict.keys (file_extensions s))
      ∧ add_category new_cat s
        = with_status_var (AddedCategory name)
            (save_config
               (with_categories_listbox (categories_listbox s ++ [name])
                  (with_file_extensions (file_extensions s ++ [(name, [])]) s))).
Proof.
  unfold add_category. destruct new_cat as [name|]; [|by left].
  destruct (negb (bool_decide (name = ""))); [|by left]. simpl.
  unfold Dict.set, Dict.mem. case_bool_decide; [by left|]. right. by exists name.
Qed.

Lemma add_extension_assigns sel new_ext s :
  add_extension sel new_ext s = s
  ∨ ∃ cat ext exts,
      Dict.get cat (file_extensions s) = Some exts
      ∧ add_extension sel new_ext s
        = with_status_var (AddedExtension ext cat)
            (save_config
               (with_file_extensions
                  (Dict.update cat (exts ++ [ext]) (file_extensions s)) s)).
Proof.
  unfold add_extension. destruct sel as [cat|], new_ext as [ext|]; try by left.
  destruct (Dict.get cat (file_extensions s)) as [exts|] eqn:Hget; [|by left].
  destruct (_ && _); [|by left]. right. by exists cat, ext, exts.
Qed.

Lemma organize_files_stack dry_run s :
  (undo_stack (organize_files dry_run s).2 = undo_stack s
   ∧ undo_btn (organize_files dry_run s).2 = undo_btn s)
  ∨ (∃ b, undo_stack (organize_files dry_run s).2 = undo_stack s ++ [b]
          ∧ undo_btn (organize_files dry_run s).2 = true).
Proof.
  unfold organize_files. destruct (selected_directory s) as [d|]; [|by left].
  set (s0 := with_status_var Organizing (with_output_text [] s)).
  pose proof (create_folders_assigns dry_run d (Dict.keys (file_extensions s0)) s0)
    as H1.
  destruct (create_folders _ _ _ _) as [[e|] s1]; simpl in H1.
  { left. apply only_disk_and_report_settings in H1 as (_ & Hst & Hbtn & _).
    simpl. by rewrite Hst, Hbtn. }
  destruct (Os.listdir _ _) as [names|e].
  2: { left. apply only_disk_and_report_settings in H1 as (_ & Hst & Hbtn & _).
       simpl. by rewrite Hst, Hbtn. }
  match goal with |- context [organize_loop ?a ?b ?c ?d ?e] =>
    pose proof (organize_loop_assigns a b c d e) as H2;
    destruct (organize_loop a b c d e) as [l2 s2] end.
  simpl in H2.
  pose proof (summary_assigns (organized_counts l2) s2) as H3.
  pose proof (only_disk_and_report_trans _ _ _ H1
                (only_disk_and_report_trans _ _ _ H2 H3)) as H.
  apply only_disk_and_report_settings in H as (_ & Hst & Hbtn & _).
  simpl. destruct (current_batch l2) as [|r b]; simpl.
  - left. by rewrite Hst, Hbtn.
  - right. exists (r :: b). by rewrite Hst.
Qed.

Lemma undo_changes_stack s :
  (undo_stack s = [] ∧ undo_changes s = (NothingToUndo, s))
  ∨ (∃ b rest,
       undo_stack s = rest ++ [b]
       ∧ undo_stack (undo_changes s).2 = rest
       ∧ undo_btn (undo_changes s).2
         = match rest with [] => false | _ => undo_btn s end).
Proof.
  unfold undo_changes. destruct (pop (undo_stack s)) as [[b rest]|] eqn:Hpop.
  - right. exists b, rest. apply pop_Some in Hpop.
    pose proof (undo_loop_assigns b 0
                  (add_output UndoingLast (with_undo_stack rest s))) as H.
    destruct (undo_loop _ _ _) as [n s1]. simpl in H.
    apply only_disk_and_report_settings in H as (_ & Hst & Hbtn & _).
    simpl. split; [done|]. destruct rest; simpl; by rewrite ?Hst, ?Hbtn.
  - left. split; [|done]. destruct (undo_stack s) as [|x l _] using rev_ind;
      [done|]. by rewrite pop_snoc in Hpop.
Qed.

(** X17. Whatever the user does after the start of the program, the undo
    button is enabled exactly when the undo stack holds a batch. *)
Theorem undo_button_follows_stack (disk : gmap (list string) node)
    (file : option config_doc) (cs : list command) :
  undo_btn (run cs (startup disk file)) = true
  ↔ undo_stack (run cs (startup disk file)) ≠ [].
Proof.
  apply (run_invariant (λ s, undo_btn s = true ↔ undo_stack s ≠ [])); [|done].
  clear. intros c s Hinv. destruct c; simpl.
  - unfold select_directory. by destruct dir_path.
  - done.
  - destruct (add_category_assigns new_cat s) as [->|(name & _ & _ & ->)]; done.
  - unfold remove_category. destruct selected; [|done].
    destruct (selected_category _ _); [|done]. destruct confirm; [|done].
    by destruct (Dict.mem _ _).
  - destruct (add_extension_assigns (selected_category selected s) new_ext s)
      as [->|(cat & ext & exts & _ & ->)]; done.
  - unfold save_extensions. by destruct (selected_category _ _).
  - destruct (organize_files_stack dry_run s) as [[-> ->]|(b & -> & ->)]; [done|].
    split; [|done]. intros _. by destruct (undo_stack s).
  - destruct (undo_changes_stack s) as [[_ ->]|(b & rest & Hst & -> & ->)]; [done|].
    destruct rest; [done|]. rewrite Hinv, Hst. split; [done|].
    intros _. by destruct (_ :: rest).
  - done.
Qed.

Lemma run_invariant_of (Q : command → bool) (P : state → Prop)
    (cs : list command) (s : state) :
  (∀ c s, Q c = true → P s → P (perform c s)) →
  forallb Q cs = true → P s → P (run cs s).
Proof.
  intros Hstep. unfold run. revert s.
  induction cs as [|c cs IH]; intros s Hcs Hs; simpl; [done|].
  simpl in Hcs. apply andb_true_iff in Hcs as [Hc Hcs].
  apply IH; [done|]. by apply Hstep.
Qed.

(** X18. As long as the user only selects directories and works in the
    configuration window, [config.json] holds the configuration that is in
    memory: the categories with their extensions, and the ignore list as
    first read or in lower case; and the ignore list used to classify is
    the one read at the start, in lower case.  (An organize or an undo
    moves files, and [config.json] can be one of them.) *)
Theorem config_file_follows_memory (disk : gmap (list string) node)
    (file : option config_doc) (cs : list command) :
  forallb settings_command cs = true →
  config_json (run cs (startup disk file))
  = Some {| categories := file_extensions (run cs (startup disk file));
            ignore := config_ignore (run cs (startup disk file)) |}
  ∧ ignore_list (run cs (startup disk file))
    = ignore_list (startup disk file)
  ∧ (config_ignore (run cs (startup disk file))
     = config_ignore (startup disk file)
     ∨ config_ignore (run cs (startup disk file))
       = ignore_list (startup disk file)).
Proof.
  intros Hcs. set (s0 := startup disk file).
  apply (run_invariant_of settings_command
           (λ s, config_json s
                 = Some {| categories := file_extensions s;
                           ignore := config_ignore s |}
                 ∧ ignore_list s = ignore_list s0
                 ∧ (config_ignore s = config_ignore s0
                    ∨ config_ignore s = ignore_list s0))); [|exact Hcs|].
  2: { split_and!; [|done|by left]. unfold s0. simpl. by destruct file as [[? ?]|]. }
  clear. intros c s Hc (Hjson & Hign & Hcfg). destruct c; simpl; try done.
  - unfold select_directory. by destruct dir_path.
  - destruct (add_category_assigns new_cat s) as [->|(name & _ & _ & ->)];
      [done|]. simpl. split_and!; [done..|by right].
  - unfold remove_category. destruct selected; [|done].
    destruct (selected_category _ _); [|done]. destruct confirm; [|done].
    destruct (Dict.mem _ _); [|done]. simpl. split_and!; [done..|by right].
  - destruct (add_extension_assigns (selected_category selected s) new_ext s)
      as [->|(cat & ext & exts & _ & ->)]; [done|].
    simpl. split_and!; [done..|by right].
  - unfold save_extensions. destruct (selected_category _ _); [|done].
    simpl. split_and!; [done..|by right].
Qed.

Lemma config_file_follows_memory_witness :
  config_json (run window_session (startup ∅ None))
  = Some {| categories := file_extensions (run window_session (startup ∅ None));
            ignore := config_ignore (run window_session (startup ∅ None)) |}
  ∧ Dict.get "Models" (file_extensions (run window_session (startup ∅ None)))
    = None
  ∧ config_ignore (run window_session (startup ∅ None))
    = ["desktop.ini"; "thumbs.db"; ".ds_store"].
Proof.
  split_and!.
  - exact (proj1 (config_file_follows_memory ∅ None window_session eq_refl)).
  - vm_compute. reflexivity.
  - vm_compute. reflexivity.
Defined.

Lemma remove_category_assigns selected confirm s :
  remove_category selected confirm s = (None, None, s)
  ∨ (∃ cat, remove_category selected confirm s
            = (Some (MissingKey cat), None, s)
            ∧ cat ∈ categories_listbox s
            ∧ cat ∉ Dict.keys (file_extensions s))
  ∨ (∃ i cat,
       categories_listbox s !! i = Some cat
       ∧ cat ∈ Dict.keys (file_extensions s)
       ∧ remove_category selected confirm s
         = (None, Some (RemovedCategory cat),
            save_config
              (with_categories_listbox (delete i (categories_listbox s))
                 (with_file_extensions (Dict.del cat (file_extensions s)) s)))).
Proof.
  unfold remove_category, selected_category.
  destruct selected as [i|]; [|by left].
  destruct (categories_listbox s !! i) as [cat|] eqn:Hi; [|by left].
  destruct confirm; [|by left]. unfold Dict.mem. case_bool_decide.
  - right. right. by exists i, cat.
  - right. left. exists cat. split_and!; [done| |done].
    by eapply list_elem_of_lookup_2.
Qed.

Lemma window_in_step c opened s :
  allowed opened [c] = true →
  NoDup (Dict.keys (file_extensions s)) →
  categories_listbox s
  = (if opened then Dict.keys (file_extensions s) else []) →
  NoDup (Dict.keys (file_extensions (perform c s)))
  ∧ categories_listbox (perform c s)
    = (if match c with OpenConfigWindow => true | _ => opened end
       then Dict.keys (file_extensions (perform c s)) else []).
Proof.
  intros Hallowed Hnd Hbox. destruct c; simpl in *.
  - unfold select_directory. by destruct dir_path.
  - done.
  - rewrite andb_true_r in Hallowed. subst opened.
    destruct (add_category_assigns new_cat s) as [->|(name & _ & Hnew & ->)];
      [done|]. simpl. unfold Dict.keys in *. rewrite fmap_app, Hbox. simpl.
    split; [|done]. apply NoDup_app. split_and!; [done| |apply NoDup_singleton].
    intros x Hx ->%list_elem_of_singleton. done.
  - rewrite andb_true_r in Hallowed. subst opened.
    destruct (remove_category_assigns selected confirm s)
      as [->|[(cat & -> & Hin & Hout)|(i & cat & Hi & Hkey & ->)]]; [done| |].
    + by rewrite Hbox in Hin.
    + simpl. split; [by apply dict_del_NoDup|].
      rewrite Hbox in *. symmetry. by apply dict_del_keys.
  - rewrite andb_true_r in Hallowed. subst opened.
    destruct (add_extension_assigns (selected_category selected s) new_ext s)
      as [->|(cat & ext & exts & _ & ->)]; [done|].
    simpl. by rewrite dict_update_keys.
  - rewrite andb_true_r in Hallowed. subst opened.
    unfold save_extensions, selected_category.
    destruct selected as [i|]; [|done].
    destruct (categories_listbox s !! i) as [cat|] eqn:Hi; [|done].
    assert (Dict.mem cat (file_extensions s) = true) as Hmem.
    { unfold Dict.mem. apply bool_decide_eq_true. rewrite <- Hbox.
      by eapply list_elem_of_lookup_2. }
    simpl. unfold Dict.set. rewrite Hmem. by rewrite dict_update_keys.
  - destruct (organize_files_settings dry_run s) as (_ & -> & _ & _ & _ & ->).
    done.
  - destruct (undo_changes_settings s) as (_ & -> & _ & _ & _ & ->). done.
  - done.
Qed.

Lemma window_in_run cs opened s :
  allowed opened cs = true →
  NoDup (Dict.keys (file_extensions s)) →
  categories_listbox s
  = (if opened then Dict.keys (file_extensions s) else []) →
  NoDup (Dict.keys (file_extensions (run cs s)))
  ∧ (categories_listbox (run cs s) = []
     ∨ categories_listbox (run cs s) = Dict.keys (file_extensions (run cs s))).
Proof.
  unfold run. revert opened s.
  induction cs as [|c cs IH]; intros opened s Hallowed Hnd Hbox; simpl.
  { split; [done|]. destruct opened; [by right | by left]. }
  assert (allowed opened [c] = true
          ∧ allowed (match c with OpenConfigWindow => true | _ => opened end) cs
            = true) as [Hc Hcs].
  { destruct c; simpl in *; rewrite ?andb_true_r; try done;
      apply andb_true_iff in Hallowed as [-> ?]; done. }
  destruct (window_in_step c opened s Hc Hnd Hbox) as [Hnd' Hbox'].
  by apply (IH _ _ Hcs).
Qed.

(** X19. Let the categories read at the start have different names, and
    let the configuration window be opened once at most, its commands
    being given only after that.  Then, whatever the user does, the
    categories keep different names, the list box shows them in their
    order, and neither removing a category nor selecting one raises
    [KeyError]. *)
Theorem no_key_error (disk : gmap (list string) node)
    (file : option config_doc) (cs : list command) :
  NoDup (Dict.keys (file_extensions (startup disk file))) →
  allowed false cs = true →
  NoDup (Dict.keys (file_extensions (run cs (startup disk file))))
  ∧ (categories_listbox (run cs (startup disk file)) = []
     ∨ categories_listbox (run cs (startup disk file))
       = Dict.keys (file_extensions (run cs (startup disk file))))
  ∧ (∀ selected confirm,
       (remove_category selected confirm (run cs (startup disk file))).1.1
       = None)
  ∧ (∀ selected,
       (update_extensions selected (run cs (startup disk file))).1 = None).
Proof.
  intros Hnd Hallowed.
  destruct (window_in_run cs false (startup disk file) Hallowed Hnd eq_refl)
    as [Hnd' Hbox].
  set (s := run cs (startup disk file)) in *. split_and!; [done..| |].
  - intros selected confirm.
    destruct (remove_category_assigns selected confirm s)
      as [->|[(cat & _ & Hin & Hout)|(i & cat & _ & _ & ->)]]; [done| |done].
    destruct Hbox as [Hbox|Hbox]; rewrite Hbox in Hin; [|done].
    by apply elem_of_nil in Hin.
  - intros selected. unfold update_extensions.
    destruct (selected_category selected s) as [cat|] eqn:Hsel; [|done].
    assert (cat ∈ categories_listbox s) as Hin.
    { unfold selected_category in Hsel. destruct selected; [|done].
      by eapply list_elem_of_lookup_2. }
    destruct Hbox as [Hbox|Hbox]; rewrite Hbox in Hin;
      [by apply elem_of_nil in Hin|].
    assert (is_Some (Dict.get cat (file_extensions s))) as [exts ->]; [|done].
    apply dict_mem_get. unfold Dict.mem. by apply bool_decide_eq_true.
Qed.

Lemma no_key_error_witness :
  NoDup (Dict.keys (file_extensions (startup ∅ None)))
  ∧ allowed false window_session = true
  ∧ ∀ selected confirm,
      (remove_category selected confirm
         (run window_session (startup ∅ None))).1.1 = None.
Proof.
  assert (NoDup (Dict.keys (file_extensions (startup ∅ None)))) as Hnd.
  { vm_compute. repeat (constructor; [set_solver|]). constructor. }
  assert (allowed false window_session = true) as Hall by reflexivity.
  split_and!; [exact Hnd | exact Hall |].
  exact (proj1 (proj2 (proj2 (no_key_error ∅ None window_session Hnd Hall)))).
Defined.

(** ** More on undo *)

Lemma undo_loop_disk_only b n s1 s2 :
  fs s1 = fs s2 →
  (undo_loop b n s1).1 = (undo_loop b n s2).1
  ∧ fs (undo_loop b n s1).2 = fs (undo_loop b n s2).2.
Proof.
  revert n s1 s2. induction b as [|[src dest] b IH]; intros n s1 s2 Hfs; simpl.
  { done. }
  rewrite Hfs. destruct (Os.path_exists _ _); [|by apply IH].
  destruct (Shutil.move _ _ _); by apply IH.
Qed.

(** X20. Undo does not look at the selected directory: after another
    directory has been selected, or the selection cancelled, it reverts
    the same batch, with the same count and the same result on disk. *)
Theorem undo_ignores_selection (dir_path : option (list string)) (s : state) :
  (undo_changes (select_directory dir_path s)).1 = (undo_changes s).1
  ∧ fs (undo_changes (select_directory dir_path s)).2 = fs (undo_changes s).2
  ∧ undo_stack (undo_changes (select_directory dir_path s)).2
    = undo_stack (undo_changes s).2.
Proof.
  destruct dir_path as [d|]; [|done]. unfold undo_changes. simpl.
  destruct (pop (undo_stack s)) as [[b rest]|]; [|done].
  set (s1 := add_output UndoingLast (with_undo_stack rest
               (with_status_var (SelectedDirectory d)
                  (with_selected_directory (Some d) s)))).
  set (s2 := add_output UndoingLast (with_undo_stack rest s)).
  destruct (undo_loop_disk_only b 0 s1 s2 eq_refl) as [Hn Hfs].
  pose proof (undo_loop_assigns b 0 s1) as H1.
  pose proof (undo_loop_assigns b 0 s2) as H2.
  destruct (undo_loop b 0 s1) as [n1 t1], (undo_loop b 0 s2) as [n2 t2].
  simpl in *. subst n2.
  apply only_disk_and_report_settings in H1 as (_ & Hst1 & _).
  apply only_disk_and_report_settings in H2 as (_ & Hst2 & _).
  destruct rest; simpl; by rewrite ?Hst1, ?Hst2.
Qed.

Lemma undo_loop_all_gone b n s :
  Forall (λ r, fs s !! r.2 = None) b →
  undo_loop b n s
  = (n, with_log (log s ++ (WarningUndoNotFound <$> b.*2)) s).
Proof.
  revert s. induction b as [|[src dest] b IH]; intros s Hall; simpl.
  { rewrite app_nil_r. by destruct s. }
  apply Forall_cons_1 in Hall as [Hdest Hall]. simpl in Hdest.
  unfold Os.path_exists. rewrite Hdest. rewrite IH by done.
  f_equal. unfold add_log. simpl. by rewrite <- app_assoc.
Qed.

(** X21. When none of the destinations of the batch on top exists any
    more, undo moves nothing and reports zero files; the disk is as it
    was, the batch is taken off the stack all the same, and the log gets
    one warning for each record. *)
Theorem undo_all_gone (s : state) (rest : list (list (list string * list string)))
    (b : list (list string * list string)) :
  undo_stack s = rest ++ [b] →
  Forall (λ r, fs s !! r.2 = None) b →
  ∃ s', undo_changes s = (UndoDone 0, s')
        ∧ fs s' = fs s
        ∧ undo_stack s' = rest
        ∧ log s' = log s ++ (WarningUndoNotFound <$> b.*2)
        ∧ Reverted 0 ∈ output_text s'.
Proof.
  intros Hst Hall. unfold undo_changes. rewrite Hst, pop_snoc.
  rewrite undo_loop_all_gone by done. simpl.
  eexists. split; [reflexivity|].
  destruct rest; simpl; split_and!; try done; set_solver.
Qed.

Lemma undo_all_gone_witness :
  ∃ s', undo_changes
          (with_fs {[ [] := Dir ]} (organize_files false scenario).2)
        = (UndoDone 0, s')
        ∧ fs s' = {[ [] := Dir ]}.
Proof.
  destruct (undo_all_gone
              (with_fs {[ [] := Dir ]} (organize_files false scenario).2)
              [] (current_batch scenario_locals))
    as (s' & Hundo & Hfs & _).
  - vm_compute. reflexivity.
  - vm_compute. repeat constructor.
  - exists s'. split; [exact Hundo | exact Hfs].
Defined.

(** ** What the preview lists *)

Lemma create_folders_dry_output d folders s msg :
  (∀ folder, msg ≠ CreatedFolder folder) →
  msg ∈ output_text (create_folders true d folders s).2 ↔ msg ∈ output_text s.
Proof.
  intros Hmsg. revert s. induction folders as [|c folders IH]; intros s; simpl.
  { done. }
  destruct (Os.path_exists _ _); [apply IH|]. rewrite IH. simpl.
  rewrite elem_of_app, list_elem_of_singleton. specialize (Hmsg c). tauto.
Qed.

Lemma summary_output_inv counts s msg :
  msg ∈ output_text (summary counts s) →
  msg ∈ output_text s
  ∨ (∃ n, msg = TotalOrganized n) ∨ msg = OrganizedInto
  ∨ (∃ folder n, msg = CategoryCount folder n).
Proof.
  unfold summary. case_decide; simpl.
  { rewrite elem_of_app, list_elem_of_singleton. naive_solver. }
  assert (∀ cs s0,
            msg ∈ output_text
                    (foldl (λ s fc, if decide (0 < fc.2)
                                    then add_output (CategoryCount fc.1 fc.2) s
                                    else s) s0 cs) →
            msg ∈ output_text s0 ∨ ∃ folder n, msg = CategoryCount folder n)
    as Hlines.
  { induction cs as [|fc cs IH]; intros s0; simpl; [by left|].
    intros [Hin|Hin]%IH; [|by right]. case_decide; [|by left].
    simpl in Hin. apply elem_of_app in Hin as [Hin|Hin%list_elem_of_singleton];
      [by left | right; by eexists _, _]. }
  intros [Hin|Hin]%Hlines; [|naive_solver]. simpl in Hin.
  rewrite !elem_of_app, !list_elem_of_singleton in Hin. naive_solver.
Qed.

Lemma organize_loop_dry_lines d names l s msg :
  msg ∈ output_text (organize_loop true d names l s).2 ↔
  msg ∈ output_text s
  ∨ ∃ f, f ∈ names ∧ Os.isfile (f :: d) (fs s) = true
         ∧ match classify f (file_extensions s) (ignore_list s) with
           | Ignored => False
           | Matched folder => msg = WouldMove f folder
           | Unmatched => msg = NoCategoryFound f
           end.
Proof.
  revert l s. induction names as [|g names IH]; intros l s; simpl.
  { split; [by left|]. intros [?|(f & ?%elem_of_nil & _)]; done. }
  pose proof (organize_file_dry d g l s) as [Hfs _].
  pose proof (organize_file_globals true d g l s) as (_ & Hfe & _ & Hign & _).
  assert (msg ∈ output_text (organize_file true d g l s).2 ↔
          msg ∈ output_text s
          ∨ (Os.isfile (g :: d) (fs s) = true
             ∧ match classify g (file_extensions s) (ignore_list s) with
               | Ignored => False
               | Matched folder => msg = WouldMove g folder
               | Unmatched => msg = NoCategoryFound g
               end)) as Hstep.
  { unfold organize_file, classify. destruct (Os.isfile _ _); [|naive_solver].
    destruct (is_ignored _ _); [naive_solver|].
    rewrite try_folders_dry. destruct (first_folder _ _); simpl;
      rewrite elem_of_app, list_elem_of_singleton; naive_solver. }
  destruct (organize_file true d g l s) as [l1 s1]. simpl in *.
  rewrite IH, Hstep, Hfs, Hfe, Hign. split.
  - intros [[?|[? ?]]|(f & ? & ? & ?)]; [by left| |].
    + right. exists g. split; [set_solver | done].
    + right. exists f. split; [set_solver | done].
  - intros [?|(f & [->|?]%elem_of_cons & ? & ?)]; [by left; left| |].
    + left. by right.
    + right. by exists f.
Qed.

(** X22. When a dry run completes, its report says "would move" for
    exactly the regular files of the directory that the classifier
    matches, each with its category, and "no category found" for exactly
    those that it leaves unmatched; an ignored file has no line. *)
Theorem preview_lists_matches (s s' : state) (d : list string) (l : locals) :
  selected_directory s = Some d →
  organize_files true s = (Completed l, s') →
  (∀ f folder,
     WouldMove f folder ∈ output_text s'
     ↔ Os.isfile (f :: d) (fs s) = true
       ∧ classify f (file_extensions s) (ignore_list s) = Matched folder)
  ∧ (∀ f,
       NoCategoryFound f ∈ output_text s'
       ↔ Os.isfile (f :: d) (fs s) = true
         ∧ classify f (file_extensions s) (ignore_list s) = Unmatched).
Proof.
  intros Hsel. unfold organize_files. rewrite Hsel.
  set (s0 := with_status_var Organizing (with_output_text [] s)).
  destruct (create_folders_dry d (Dict.keys (file_extensions s0)) s0)
    as (s1 & Hcf & Hfs1).
  pose proof (create_folders_globals true d (Dict.keys (file_extensions s0)) s0)
    as Hg.
  pose proof (create_folders_dry_output d (Dict.keys (file_extensions s0)) s0)
    as Hout1.
  rewrite Hcf in *. simpl in Hg, Hout1. destruct Hg as (_ & Hfe & _ & Hign & _).
  change (fs s0) with (fs s) in Hfs1.
  change (file_extensions s0) with (file_extensions s) in Hfe.
  change (ignore_list s0) with (ignore_list s) in Hign.
  unfold Os.listdir. rewrite Hfs1.
  destruct (fs s !! d) as [[x|]|] eqn:Hd; [done| |done].
  match goal with |- context [organize_loop ?a ?b ?c ?d ?e] =>
    pose proof (organize_loop_dry_lines b c d e) as Hlines;
    pose proof (organize_loop_dry b c d e) as [_ Hbatch];
    destruct (organize_loop a b c d e) as [l2 s2] end.
  simpl in Hlines, Hbatch. intros [= <- <-]. rewrite Hbatch. simpl.
  assert (∀ msg,
            (∀ folder, msg ≠ CreatedFolder folder) →
            (∀ n, msg ≠ TotalOrganized n) → msg ≠ OrganizedInto →
            (∀ folder n, msg ≠ CategoryCount folder n) →
            msg ∈ output_text (summary (organized_counts l2) s2) ↔
            ∃ f, Os.isfile (f :: d) (fs s) = true
                 ∧ match classify f (file_extensions s) (ignore_list s) with
                   | Ignored => False
                   | Matched folder => msg = WouldMove f folder
                   | Unmatched => msg = NoCategoryFound f
                   end) as Hmsg.
  { intros msg H1 H2 H3 H4. split.
    - intros [Hin|Hin]%summary_output_inv; [|naive_solver].
      apply Hlines in Hin as [Hin|(f & _ & Hfile & Hcl)].
      + apply Hout1 in Hin; [|done]. by apply elem_of_nil in Hin.
      + exists f. by rewrite <- Hfs1, <- Hfe, <- Hign.
    - intros (f & Hfile & Hcl). apply summary_output, Hlines. right.
      exists f. rewrite Hfs1, Hfe, Hign. split_and!; [|done..].
      apply entries_elem. apply isfile_Some in Hfile as [? ->]. done. }
  split.
  - intros f folder. rewrite Hmsg by done. split.
    + intros (g & Hfile & Hcl).
      destruct (classify g _ _) eqn:Hc; [done| |done]. by injection Hcl as -> ->.
    + intros [Hfile Hcl]. exists f. by rewrite Hcl.
  - intros f. rewrite Hmsg by done. split.
    + intros (g & Hfile & Hcl).
      destruct (classify g _ _) eqn:Hc; [done..|]. by injection Hcl as ->.
    + intros [Hfile Hcl]. exists f. by rewrite Hcl.
Qed.

Lemma preview_lists_matches_witness :
  WouldMove "a.jpg" "Images" ∈ output_text (organize_files true scenario).2.
Proof.
  assert (organize_files true scenario
          = (Completed {| organized_counts := organized_counts scenario_locals;
                          current_batch := [] |},
             (organize_files true scenario).2)) as Hrun
    by (vm_compute; reflexivity).
  apply (proj1 (preview_lists_matches scenario _ ["dir"] _ eq_refl Hrun)).
  split; vm_compute; reflexivity.
Defined.
